(** * Tinyships: carrier ship and aircraft logic of [game.cpp]

    A shallow embedding of [src/game_cpp/game.cpp].  The C++ [float] is
    IEEE 754 binary32, modelled on the Standard Library's [SpecFloat]: every
    operation rounds its exact result to nearest, ties to even, with no
    wider intermediate format and no fused multiply-add.  The [<cmath>]
    functions and the scene framework are not part of the repository's
    sources: the former are a class of functions the theorems quantify over,
    the latter is a small model of a mesh store.  A reference implementation
    of the [<cmath>] functions makes concrete runs of the game computable. *)

From Stdlib Require Import ZArith Bool Lia Floats.SpecFloat.
From stdpp Require Import base option list gmap.

Set Default Proof Using "Type".
Set Warnings "-clear-no-such-hyp".

(** ** binary32 arithmetic *)

Module F32.
Definition prec : Z := 24.
Definition emax : Z := 128.

Definition float : Type := spec_float.

Definition add : float -> float -> float := SFadd prec emax.
Definition sub : float -> float -> float := SFsub prec emax.
Definition mul : float -> float -> float := SFmul prec emax.
Definition div : float -> float -> float := SFdiv prec emax.
Definition sqrt : float -> float := SFsqrt prec emax.
Definition opp : float -> float := SFopp.

(** The comparison operators of C++; every one of them is false on NaN
    except [!=]. *)
Definition leb : float -> float -> bool := SFleb.
Definition ltb : float -> float -> bool := SFltb.
Definition eqb : float -> float -> bool := SFeqb.
Definition geb (a b : float) : bool := SFleb b a.
Definition gtb (a b : float) : bool := SFltb b a.
Definition neb (a b : float) : bool := negb (SFeqb a b).

(** An integer, and a decimal literal [m / 10^k], rounded to binary32. *)
Definition of_Z (n : Z) : float := binary_normalize prec emax n 0 false.
Definition dec (m k : positive) : float :=
  SFdiv prec emax (S754_finite false m 0) (S754_finite false (10 ^ k) 0).

Definition zero : float := S754_zero false.
Definition one : float := of_Z 1.
Definition two : float := of_Z 2.

Definition is_finite (a : float) : bool :=
  match a with
  | S754_zero _ | S754_finite _ _ _ => true
  | S754_infinity _ | S754_nan => false
  end.

Definition is_nan (a : float) : bool :=
  match a with S754_nan => true | _ => false end.

(** The sign bit; NaN carries none in [spec_float]. *)
Definition signbit (a : float) : bool :=
  match a with
  | S754_zero s | S754_infinity s | S754_finite s _ _ => s
  | S754_nan => false
  end.
End F32.

Declare Scope f32_scope.
Delimit Scope f32_scope with f32.
Bind Scope f32_scope with F32.float.
Infix "+" := F32.add : f32_scope.
Infix "-" := F32.sub : f32_scope.
Infix "*" := F32.mul : f32_scope.
Infix "/" := F32.div : f32_scope.
Notation "- a" := (F32.opp a) : f32_scope.
Infix "<=?" := F32.leb : f32_scope.
Infix "<?" := F32.ltb : f32_scope.
Infix ">=?" := F32.geb (at level 70) : f32_scope.
Infix ">?" := F32.gtb (at level 70) : f32_scope.
Infix "!=?" := F32.neb (at level 70) : f32_scope.

(** ** What the program takes from outside the repository *)

(** [std::cos], [std::sin] and [std::atan2] on [float].  IEEE 754 does not
    fix their results, so they are parameters of the model. *)
Class Libm := {
  std_cos : F32.float -> F32.float;
  std_sin : F32.float -> F32.float;
  std_atan2 : F32.float -> F32.float -> F32.float;
}.

(** Modelled from the spec: [framework/game.hpp] and [framework/scene.hpp]
    are not among the sources.  The key identifiers and their count, and the
    screen-to-world transform, are whatever the framework declares. *)
Class Framework := {
  KEY_FORWARD : Z;
  KEY_BACKWARD : Z;
  KEY_LEFT : Z;
  KEY_RIGHT : Z;
  KEY_COUNT : Z;
  screenToWorld : F32.float * F32.float -> F32.float * F32.float;
}.

(** Modelled from the spec: the scene of [framework/scene.hpp], which
    creates, destroys and places visuals and places a goal marker.  A mesh
    pointer is [None] for [nullptr] and [Some h] otherwise; handles are
    never reused, so a pointer to a destroyed mesh stays recognisable as
    dangling. *)
Module scene.
Inductive MeshKind := ShipMesh | AircraftMesh.

Record Placement := mkPlacement {
  kind : MeshKind;
  at_x : F32.float;
  at_y : F32.float;
  at_angle : F32.float;
}.

Definition MeshPtr : Type := option nat.

Record t := mk {
  meshes : gmap nat Placement;
  next : nat;
  goalMarker : option (F32.float * F32.float);
}.

Definition empty : t := mk ∅ 0 None.

Definition createMesh (k : MeshKind) (sc : t) : MeshPtr * t :=
  (Some (next sc),
   mk (<[next sc := mkPlacement k F32.zero F32.zero F32.zero]> (meshes sc))
      (S (next sc)) (goalMarker sc)).

Definition createShipMesh : t -> MeshPtr * t := createMesh ShipMesh.
Definition createAircraftMesh : t -> MeshPtr * t := createMesh AircraftMesh.

Definition destroyMesh (p : MeshPtr) (sc : t) : t :=
  match p with
  | Some h => mk (delete h (meshes sc)) (next sc) (goalMarker sc)
  | None => sc
  end.

Definition placeMesh (p : MeshPtr) (x y a : F32.float) (sc : t) : t :=
  match p with
  | Some h =>
      mk (alter (fun pl => mkPlacement (kind pl) x y a) h (meshes sc))
         (next sc) (goalMarker sc)
  | None => sc
  end.

Definition placeGoalMarker (x y : F32.float) (sc : t) : t :=
  mk (meshes sc) (next sc) (Some (x, y)).

(** The visual behind a pointer exists. *)
Definition live (p : MeshPtr) (sc : t) : Prop :=
  exists h, p = Some h /\ h ∈ dom (meshes sc).
End scene.

(** ** game parameters *)

Module params.
Module ship.
Definition LINEAR_SPEED : F32.float := F32.dec 5 1.
Definition ANGULAR_SPEED : F32.float := F32.dec 5 1.
End ship.

Module aircraft.
Definition LINEAR_SPEED : F32.float := F32.of_Z 2.
Definition ANGULAR_SPEED : F32.float := F32.dec 25 1.
Definition FLIGHT_TIME : F32.float := F32.of_Z 10.
Definition REFUEL_TIME : F32.float := F32.of_Z 3.
End aircraft.

Definition PI : F32.float := F32.dec 314159265358979 14.
End params.

(** ** Basic Vector2 class *)

Module Vector2.
Record t := mk { x : F32.float; y : F32.float }.

Definition zero : t := mk F32.zero F32.zero.

Definition add (left right : t) : t :=
  mk (x left + x right)%f32 (y left + y right)%f32.

Definition sub (left right : t) : t :=
  mk (x left - x right)%f32 (y left - y right)%f32.

Definition scale (left : F32.float) (right : t) : t :=
  mk (left * x right)%f32 (left * y right)%f32.

Definition length (v : t) : F32.float :=
  F32.sqrt (x v * x v + y v * y v)%f32.
End Vector2.

(** ** Aircraft and Ship: the class declarations *)

Inductive AircraftState := IDLE | TAKEOFF | FLY | HOVER | LAND | REFUEL.

Global Instance AircraftState_eq_dec : EqDecision AircraftState.
Proof. solve_decision. Defined.

(** [owningShip] is a pointer to the one global ship: the functions that
    follow it take the ship as the argument [owner]. *)
Record Aircraft := mkAircraft {
  mesh : scene.MeshPtr;
  position : Vector2.t;
  angle : F32.float;
  acceleration : F32.float;
  linearSpeed : F32.float;
  takeoffTime : F32.float;
  flightTime : F32.float;
  landingTime : F32.float;
  targetPosition : Vector2.t;
  hoverRaduis : F32.float;
  hoverAngle : F32.float;
  state : AircraftState;
}.

(** [planes] is a pointer to the one global array: the functions that
    follow it take the array as an argument. *)
Record Ship := mkShip {
  ship_mesh : scene.MeshPtr;
  ship_position : Vector2.t;
  ship_angle : F32.float;
  ship_linearSpeed : F32.float;
  ship_input : list bool;
}.

Definition Ship_getPosition (s : Ship) : Vector2.t := ship_position s.
Definition Ship_getAngle (s : Ship) : F32.float := ship_angle s.
Definition Ship_getLinearSpeed (s : Ship) : F32.float := ship_linearSpeed s.

(** Assignments to one member. *)
Definition set_mesh v (a : Aircraft) :=
  mkAircraft v (position a) (angle a) (acceleration a) (linearSpeed a)
    (takeoffTime a) (flightTime a) (landingTime a) (targetPosition a)
    (hoverRaduis a) (hoverAngle a) (state a).
Definition set_position v (a : Aircraft) :=
  mkAircraft (mesh a) v (angle a) (acceleration a) (linearSpeed a)
    (takeoffTime a) (flightTime a) (landingTime a) (targetPosition a)
    (hoverRaduis a) (hoverAngle a) (state a).
Definition set_angle v (a : Aircraft) :=
  mkAircraft (mesh a) (position a) v (acceleration a) (linearSpeed a)
    (takeoffTime a) (flightTime a) (landingTime a) (targetPosition a)
    (hoverRaduis a) (hoverAngle a) (state a).
Definition set_linearSpeed v (a : Aircraft) :=
  mkAircraft (mesh a) (position a) (angle a) (acceleration a) v
    (takeoffTime a) (flightTime a) (landingTime a) (targetPosition a)
    (hoverRaduis a) (hoverAngle a) (state a).
Definition set_flightTime v (a : Aircraft) :=
  mkAircraft (mesh a) (position a) (angle a) (acceleration a) (linearSpeed a)
    (takeoffTime a) v (landingTime a) (targetPosition a)
    (hoverRaduis a) (hoverAngle a) (state a).
Definition set_landingTime v (a : Aircraft) :=
  mkAircraft (mesh a) (position a) (angle a) (acceleration a) (linearSpeed a)
    (takeoffTime a) (flightTime a) v (targetPosition a)
    (hoverRaduis a) (hoverAngle a) (state a).
Definition set_targetPosition v (a : Aircraft) :=
  mkAircraft (mesh a) (position a) (angle a) (acceleration a) (linearSpeed a)
    (takeoffTime a) (flightTime a) (landingTime a) v
    (hoverRaduis a) (hoverAngle a) (state a).
Definition set_hoverAngle v (a : Aircraft) :=
  mkAircraft (mesh a) (position a) (angle a) (acceleration a) (linearSpeed a)
    (takeoffTime a) (flightTime a) (landingTime a) (targetPosition a)
    (hoverRaduis a) v (state a).
Definition set_state v (a : Aircraft) :=
  mkAircraft (mesh a) (position a) (angle a) (acceleration a) (linearSpeed a)
    (takeoffTime a) (flightTime a) (landingTime a) (targetPosition a)
    (hoverRaduis a) (hoverAngle a) v.

(** ** Simple aircraft logic *)

Section AircraftLogic.
Context `{Libm}.

(** The unit vector [Vector2( std::cos(a), std::sin(a) )]. *)
Definition heading (a : F32.float) : Vector2.t :=
  Vector2.mk (std_cos a) (std_sin a).

(** The objects have static storage: what the constructor does not set
    is zero, and [targetPosition] is a default-constructed [Vector2]. *)
Definition Aircraft_static : Aircraft :=
  mkAircraft None Vector2.zero F32.zero F32.zero F32.zero F32.zero F32.zero
    F32.zero Vector2.zero F32.zero F32.zero IDLE.

(** [init] assigns every member but [mesh] and [targetPosition]. *)
Definition Aircraft_init (a : Aircraft) : Aircraft :=
  mkAircraft (mesh a)
    (Vector2.mk F32.zero F32.zero) F32.zero (F32.of_Z 1) F32.zero
    (F32.of_Z 2) F32.zero F32.zero
    (targetPosition a)
    (F32.of_Z 1) F32.zero
    IDLE.

Definition Aircraft_deinit (a : Aircraft) (sc : scene.t) : Aircraft * scene.t :=
  let sc := scene.destroyMesh (mesh a) sc in
  (set_mesh None a, sc).

Definition Aircraft_setTarget (position : Vector2.t) (a : Aircraft) : Aircraft :=
  set_targetPosition position a.

Definition Aircraft_readyToFly (a : Aircraft) : bool :=
  bool_decide (state a = IDLE).

Definition Aircraft_inFlight (a : Aircraft) : bool :=
  bool_decide (state a ≠ IDLE) && bool_decide (state a ≠ REFUEL).

Definition Aircraft_launch (owner : Ship) (a : Aircraft) (sc : scene.t)
  : Aircraft * scene.t :=
  let '(m, sc) := scene.createAircraftMesh sc in
  let a := set_mesh m a in
  let a := set_position (Ship_getPosition owner) a in
  let a := set_angle (Ship_getAngle owner) a in
  let sc := scene.placeMesh (mesh a) (Vector2.x (position a))
              (Vector2.y (position a)) (angle a) sc in
  (set_state TAKEOFF a, sc).

Definition Aircraft_takeoff (owner : Ship) (dt : F32.float) (a : Aircraft)
  : Aircraft :=
  let a := if (flightTime a >=? takeoffTime a)%f32 then set_state FLY a else a in
  let a := set_angle (Ship_getAngle owner) a in
  let speed := (linearSpeed a + Ship_getLinearSpeed owner)%f32 in
  set_position
    (Vector2.add (position a) (Vector2.scale (speed * dt)%f32 (heading (angle a))))
    a.

Definition Aircraft_fly (dt : F32.float) (a : Aircraft) : Aircraft :=
  let radiusToTarget := Vector2.length (Vector2.sub (targetPosition a) (position a)) in
  if (radiusToTarget <=? hoverRaduis a)%f32 then
    let a := set_state HOVER a in
    set_hoverAngle (angle a + params.PI)%f32 a
  else
    let a :=
      set_angle
        (std_atan2
           (Vector2.y (targetPosition a) - Vector2.y (position a))%f32
           (Vector2.x (targetPosition a) - Vector2.x (position a))%f32) a in
    set_position
      (Vector2.add (position a)
         (Vector2.scale (linearSpeed a * dt)%f32 (heading (angle a))))
      a.

Definition errorTolerance : F32.float := F32.dec 1 6.

Definition Aircraft_hover (dt : F32.float) (a : Aircraft) : Aircraft :=
  let radiusToTarget := Vector2.length (Vector2.sub (targetPosition a) (position a)) in
  if (radiusToTarget >? hoverRaduis a + errorTolerance)%f32 then
    set_state FLY a
  else
    let a :=
      if (flightTime a >=? params.aircraft.FLIGHT_TIME)%f32
      then set_state LAND a else a in
    let a := set_angle (hoverAngle a + params.PI / F32.of_Z 2)%f32 a in
    let a := set_hoverAngle
               (hoverAngle a + params.aircraft.ANGULAR_SPEED * dt)%f32 a in
    let posX := (Vector2.x (targetPosition a)
                 + std_cos (hoverAngle a) * hoverRaduis a)%f32 in
    let posY := (Vector2.y (targetPosition a)
                 + std_sin (hoverAngle a) * hoverRaduis a)%f32 in
    set_position (Vector2.mk posX posY) a.

Definition Aircraft_land (owner : Ship) (dt : F32.float) (a : Aircraft)
  (sc : scene.t) : Aircraft * scene.t :=
  let landingPos := Ship_getPosition owner in
  let distanceToShip := Vector2.length (Vector2.sub landingPos (position a)) in
  let '(a, sc) :=
    if (distanceToShip <=? F32.dec 1 1)%f32 then
      let a := set_state REFUEL a in
      let a := set_landingTime (flightTime a) a in
      (a, scene.destroyMesh (mesh a) sc)
    else (a, sc) in
  let a :=
    set_angle
      (std_atan2
         (Vector2.y landingPos - Vector2.y (position a))%f32
         (Vector2.x landingPos - Vector2.x (position a))%f32) a in
  (set_position
     (Vector2.add (position a)
        (Vector2.scale (linearSpeed a * dt)%f32 (heading (angle a))))
     a, sc).

Definition Aircraft_refuel (dt : F32.float) (a : Aircraft) : Aircraft :=
  let a := set_landingTime (landingTime a + dt)%f32 a in
  if (landingTime a >? flightTime a + params.aircraft.REFUEL_TIME)%f32 then
    let a := set_state IDLE a in
    let a := set_linearSpeed F32.zero a in
    let a := set_flightTime F32.zero a in
    set_landingTime F32.zero a
  else a.

Definition Aircraft_simulateFlight (dt : F32.float) (a : Aircraft)
  (sc : scene.t) : Aircraft * scene.t :=
  if negb (Aircraft_inFlight a) then (a, sc)
  else
    let newSpeed := (linearSpeed a + acceleration a * dt)%f32 in
    let maxSpeed := params.aircraft.LINEAR_SPEED in
    let a := if (newSpeed <=? maxSpeed)%f32
             then set_linearSpeed newSpeed a
             else set_linearSpeed maxSpeed a in
    let a := set_flightTime (flightTime a + dt)%f32 a in
    (a, scene.placeMesh (mesh a) (Vector2.x (position a))
          (Vector2.y (position a)) (angle a) sc).

Definition Aircraft_update (owner : Ship) (dt : F32.float) (a : Aircraft)
  (sc : scene.t) : Aircraft * scene.t :=
  let '(a, sc) :=
    match state a with
    | TAKEOFF => (Aircraft_takeoff owner dt a, sc)
    | FLY => (Aircraft_fly dt a, sc)
    | HOVER => (Aircraft_hover dt a, sc)
    | LAND => Aircraft_land owner dt a sc
    | REFUEL => (Aircraft_refuel dt a, sc)
    | IDLE => (a, sc)
    end in
  Aircraft_simulateFlight dt a sc.
End AircraftLogic.


(** ** Simple ship logic *)

Section ShipLogic.
Context `{Libm} `{Framework}.

(** [input[ key ]] for a key of the framework. *)
Definition Ship_key (s : Ship) (key : Z) : bool :=
  default false (ship_input s !! Z.to_nat key).

Definition Ship_static : Ship :=
  mkShip None Vector2.zero F32.zero F32.zero (replicate (Z.to_nat KEY_COUNT) false).

(** [assert( !mesh )] fails on a ship that still has its mesh; [init] does
    not assign [linearSpeed]. *)
Definition Ship_init (s : Ship) (sc : scene.t) : option (Ship * scene.t) :=
  match ship_mesh s with
  | Some _ => None
  | None =>
      let '(m, sc) := scene.createShipMesh sc in
      Some (mkShip m (Vector2.mk F32.zero F32.zero) F32.zero
              (ship_linearSpeed s) ((fun _ => false) <$> ship_input s), sc)
  end.

Definition Ship_deinit (s : Ship) (sc : scene.t) : Ship * scene.t :=
  let sc := scene.destroyMesh (ship_mesh s) sc in
  (mkShip None (ship_position s) (ship_angle s) (ship_linearSpeed s)
     (ship_input s), sc).

Definition Ship_update (dt : F32.float) (s : Ship) (sc : scene.t)
  : Ship * scene.t :=
  let linearSpeed := F32.zero in
  let angularSpeed := F32.zero in
  let linearSpeed :=
    if Ship_key s KEY_FORWARD then params.ship.LINEAR_SPEED
    else if Ship_key s KEY_BACKWARD then (- params.ship.LINEAR_SPEED)%f32
    else linearSpeed in
  let angularSpeed :=
    if Ship_key s KEY_LEFT && (linearSpeed !=? F32.zero)%f32
    then params.ship.ANGULAR_SPEED
    else if Ship_key s KEY_RIGHT && (linearSpeed !=? F32.zero)%f32
    then (- params.ship.ANGULAR_SPEED)%f32
    else angularSpeed in
  let angle := (ship_angle s + angularSpeed * dt)%f32 in
  let position :=
    Vector2.add (ship_position s)
      (Vector2.scale (linearSpeed * dt)%f32 (heading angle)) in
  (mkShip (ship_mesh s) position angle linearSpeed (ship_input s),
   scene.placeMesh (ship_mesh s) (Vector2.x position) (Vector2.y position)
     angle sc).

(** [assert( key >= 0 && key < game::KEY_COUNT )]. *)
Definition Ship_setKey (key : Z) (v : bool) (s : Ship) : option Ship :=
  if bool_decide (0 ≤ key ∧ key < KEY_COUNT)%Z then
    Some (mkShip (ship_mesh s) (ship_position s) (ship_angle s)
            (ship_linearSpeed s) (<[Z.to_nat key := v]> (ship_input s)))
  else None.

Definition Ship_keyPressed (key : Z) : Ship -> option Ship :=
  Ship_setKey key true.

Definition Ship_keyReleased (key : Z) : Ship -> option Ship :=
  Ship_setKey key false.

(** The loop of the right-button branch: the first plane that is ready to
    fly is launched and the loop is left. *)
Fixpoint launch_first (owner : Ship) (planes : list Aircraft) (sc : scene.t)
  : list Aircraft * scene.t :=
  match planes with
  | [] => ([], sc)
  | plane :: rest =>
      if Aircraft_readyToFly plane then
        let '(plane, sc) := Aircraft_launch owner plane sc in
        (plane :: rest, sc)
      else
        let '(rest, sc) := launch_first owner rest sc in
        (plane :: rest, sc)
  end.

Definition Ship_mouseClicked (worldPosition : Vector2.t) (isLeftButton : bool)
  (s : Ship) (planes : list Aircraft) (sc : scene.t)
  : list Aircraft * scene.t :=
  if isLeftButton then
    let sc := scene.placeGoalMarker (Vector2.x worldPosition)
                (Vector2.y worldPosition) sc in
    (Aircraft_setTarget worldPosition <$> planes, sc)
  else launch_first s planes sc.

(** ** game public interface *)

Record Game := mkGame {
  ship : Ship;
  planes : list Aircraft;
  world : scene.t;
}.

(** A loop [for ( Aircraft &plane : planes )] whose body works on the plane
    and the scene. *)
Fixpoint for_each (body : Aircraft -> scene.t -> Aircraft * scene.t)
  (ps : list Aircraft) (sc : scene.t) : list Aircraft * scene.t :=
  match ps with
  | [] => ([], sc)
  | plane :: rest =>
      let '(plane, sc) := body plane sc in
      let '(rest, sc) := for_each body rest sc in
      (plane :: rest, sc)
  end.

(** The globals before [init]: one ship and five aircraft. *)
Definition game_static : Game :=
  mkGame Ship_static (replicate 5 Aircraft_static) scene.empty.

Definition game_init (g : Game) : option Game :=
  '(s, sc) ← Ship_init (ship g) (world g);
  Some (mkGame s (Aircraft_init <$> planes g) sc).

Definition game_deinit (g : Game) : Game :=
  let '(s, sc) := Ship_deinit (ship g) (world g) in
  let '(ps, sc) :=
    for_each (fun plane sc =>
                if Aircraft_inFlight plane then Aircraft_deinit plane sc
                else (plane, sc)) (planes g) sc in
  mkGame s ps sc.

Definition game_update (dt : F32.float) (g : Game) : Game :=
  let '(s, sc) := Ship_update dt (ship g) (world g) in
  let '(ps, sc) := for_each (Aircraft_update s dt) (planes g) sc in
  mkGame s ps sc.

Definition game_keyPressed (key : Z) (g : Game) : option Game :=
  s ← Ship_keyPressed key (ship g); Some (mkGame s (planes g) (world g)).

Definition game_keyReleased (key : Z) (g : Game) : option Game :=
  s ← Ship_keyReleased key (ship g); Some (mkGame s (planes g) (world g)).

Definition game_mouseClicked (x y : F32.float) (isLeftButton : bool)
  (g : Game) : Game :=
  let '(wx, wy) := screenToWorld (x, y) in
  let worldPosition := Vector2.mk wx wy in
  let '(ps, sc) :=
    Ship_mouseClicked worldPosition isLeftButton (ship g) (planes g) (world g) in
  mkGame (ship g) ps sc.

(** ** Runs of the game *)

(** What the framework does with the game between [init] and the last
    [deinit]: input events, frames, and a restart ([deinit] then [init]). *)
Inductive Event :=
  | KeyPressed (key : Z)
  | KeyReleased (key : Z)
  | MouseClicked (x y : F32.float) (isLeftButton : bool)
  | Update (dt : F32.float)
  | Restart.

Definition step (g : Game) (e : Event) : option Game :=
  match e with
  | KeyPressed key => game_keyPressed key g
  | KeyReleased key => game_keyReleased key g
  | MouseClicked x y isLeftButton => Some (game_mouseClicked x y isLeftButton g)
  | Update dt => Some (game_update dt g)
  | Restart => game_init (game_deinit g)
  end.

Fixpoint run (es : list Event) (g : Game) : option Game :=
  match es with
  | [] => Some g
  | e :: es => g ← step g e; run es g
  end.

(** A frame's elapsed time is a number and is not negative. *)
Definition elapsed (dt : F32.float) : bool := (F32.zero <=? dt)%f32.

Definition event_ok (e : Event) : bool :=
  match e with
  | Update dt => elapsed dt
  | _ => true
  end.

Definition start : option Game := game_init game_static.

(** The games that events allowed by [ok] lead to. *)
Inductive reachable_by (ok : Event -> bool) : Game -> Prop :=
  | reachable_start g : start = Some g -> reachable_by ok g
  | reachable_step g e g' :
      reachable_by ok g -> ok e = true -> step g e = Some g' ->
      reachable_by ok g'.

(** Reachable by any events, and reachable by frames whose [dt] is an
    elapsed time. *)
Definition reachable : Game -> Prop := reachable_by (fun _ => true).
Definition reachable_in_time : Game -> Prop := reachable_by event_ok.
End ShipLogic.


(** ** A reference [<cmath>]

    Cosine, sine and arc tangent evaluated in fixed point with [P] fraction
    bits and rounded once to binary32.  Every finite binary32 number is an
    integer multiple of [2^-149], so its fixed-point image is exact. *)

Module RefLibm.
Definition P : Z := 320.
Definition unit : Z := 2 ^ P.
Definition fmul (a b : Z) : Z := Z.shiftr (a * b) P.
Definition fdiv (a b : Z) : Z := Z.shiftl a P / b.
Definition fsqrt (a : Z) : Z := Z.sqrt (Z.shiftl a P).

(** [t - t^3/3 + t^5/5 - ...], summed until the power vanishes. *)
Fixpoint atan_series (fuel : nat) (pw t2 k acc : Z) : Z :=
  match fuel with
  | O => acc
  | S fuel =>
      if (pw =? 0)%Z then acc
      else atan_series fuel (- fmul pw t2)%Z t2 (k + 2)%Z (acc + pw / k)%Z
  end.

Definition atan_small (t : Z) : Z := atan_series 400 t (fmul t t) 1 0.

(** [atan t = 2 * atan (t / (1 + sqrt (1 + t^2)))]. *)
Definition halve (t : Z) : Z := fdiv t (unit + fsqrt (unit + fmul t t)).

(** Arc tangent on [0, 1]. *)
Definition atan_unit (t : Z) : Z :=
  Z.shiftl (atan_small (Nat.iter 8 halve t)) 8.

(** Machin: [pi = 16 atan (1/5) - 4 atan (1/239)]. *)
Definition pi : Z :=
  Eval vm_compute in
    (16 * atan_small (unit / 5) - 4 * atan_small (unit / 239))%Z.

Definition of_float (a : F32.float) : Z :=
  match a with
  | S754_finite s m e =>
      (if s then Z.opp else id) (Z.shiftl (Zpos m) (e + P))
  | _ => 0%Z
  end.

Definition to_float (v : Z) : F32.float :=
  binary_normalize F32.prec F32.emax v (- P) false.

(** The Taylor series of cosine and sine, term by term: the term of rank
    [n] goes to the cosine for even [n] and to the sine for odd [n], with the
    signs [+ + - -]. *)
Fixpoint cos_sin_series (fuel : nat) (term r n c s : Z) (k : nat) : Z * Z :=
  match fuel with
  | O => (c, s)
  | S fuel =>
      if (term =? 0)%Z then (c, s)
      else
        let '(c, s) :=
          match k with
          | 0%nat => (c + term, s)
          | 1%nat => (c, s + term)
          | 2%nat => (c - term, s)
          | _ => (c, s - term)
          end%Z in
        cos_sin_series fuel (fmul term r / n)%Z r (n + 1)%Z c s
          (match k with 3%nat => 0%nat | _ => S k end)
  end.

(** Cosine and sine after reduction of the argument to [(-pi, pi]]. *)
Definition cos_sin (a : Z) : Z * Z :=
  let r := (a mod (2 * pi))%Z in
  let r := if (pi <? r)%Z then (r - 2 * pi)%Z else r in
  cos_sin_series 400 unit r 1 0 0 0%nat.

Definition cos (a : F32.float) : F32.float :=
  match a with
  | S754_zero _ => to_float unit
  | S754_finite _ _ _ => to_float (fst (cos_sin (of_float a)))
  | _ => S754_nan
  end.

Definition sin (a : F32.float) : F32.float :=
  match a with
  | S754_zero _ => a
  | S754_finite _ _ _ => to_float (snd (cos_sin (of_float a)))
  | _ => S754_nan
  end.

(** A magnitude with the sign of the ordinate. *)
Definition signed (s : bool) (v : Z) : F32.float :=
  match v with
  | 0%Z => S754_zero s
  | _ => binary_normalize F32.prec F32.emax (if s then - v else v)%Z (- P) s
  end.

(** The special cases are those of Annex F of the C standard. *)
Definition atan2 (b a : F32.float) : F32.float :=
  let sb := F32.signbit b in
  match b, a with
  | S754_nan, _ | _, S754_nan => S754_nan
  | S754_zero _, (S754_zero sa | S754_finite sa _ _ | S754_infinity sa) =>
      if sa then signed sb pi else S754_zero sb
  | S754_infinity _, S754_infinity sa =>
      signed sb (if sa then 3 * pi / 4 else pi / 4)%Z
  | S754_infinity _, _ => signed sb (pi / 2)%Z
  | S754_finite _ _ _, S754_infinity sa =>
      if sa then signed sb pi else S754_zero sb
  | S754_finite _ _ _, S754_zero _ => signed sb (pi / 2)%Z
  | S754_finite _ _ _, S754_finite sa _ _ =>
      let vb := Z.abs (of_float b) in
      let va := Z.abs (of_float a) in
      let t := if (vb <=? va)%Z then atan_unit (fdiv vb va)
               else (pi / 2 - atan_unit (fdiv va vb))%Z in
      signed sb (if sa then pi - t else t)%Z
  end.
End RefLibm.

Definition ref_libm : Libm :=
  {| std_cos := RefLibm.cos; std_sin := RefLibm.sin; std_atan2 := RefLibm.atan2 |}.

(** Modelled from the spec: the keys in the order the spec lists them, and
    a screen that shows the world as it is. *)
Definition ref_framework : Framework :=
  {| KEY_FORWARD := 0; KEY_BACKWARD := 1; KEY_LEFT := 2; KEY_RIGHT := 3;
     KEY_COUNT := 4; screenToWorld := fun p => p |}.


(** ** Vocabulary of the properties *)

(** [( p - q ).length()]. *)
Definition distance (p q : Vector2.t) : F32.float :=
  Vector2.length (Vector2.sub p q).

(** Positive or zero of either sign, or not a number: what a sum or a
    product of such numbers is again. *)
Definition not_negative (a : F32.float) : Prop :=
  match a with
  | S754_infinity s | S754_finite s _ _ => s = false
  | S754_zero _ | S754_nan => True
  end.

Definition speed_in_range (a : Aircraft) : Prop :=
  (F32.zero <=? linearSpeed a)%f32 = true /\
  (linearSpeed a <=? params.aircraft.LINEAR_SPEED)%f32 = true.

(** What [Aircraft::init] fixes for good, and the members an idle aircraft
    has at zero. *)
Definition plane_ok (a : Aircraft) : Prop :=
  acceleration a = F32.of_Z 1 /\
  takeoffTime a = F32.of_Z 2 /\
  hoverRaduis a = F32.of_Z 1 /\
  (state a = IDLE -> linearSpeed a = F32.zero /\ flightTime a = F32.zero).

(** The mesh of an aircraft that is in flight. *)
Definition flying_mesh (a : Aircraft) : option nat :=
  if Aircraft_inFlight a then mesh a else None.

Definition flying_meshes (ps : list Aircraft) : list nat := omap flying_mesh ps.

(** An aircraft in flight has a mesh; a pointer it holds was handed out by
    the scene; out of flight, a pointer it still holds is dangling. *)
Definition plane_mesh_ok (sc : scene.t) (a : Aircraft) : Prop :=
  (Aircraft_inFlight a = true -> is_Some (mesh a)) /\
  (forall h, mesh a = Some h -> h < scene.next sc) /\
  (Aircraft_inFlight a = false ->
   forall h, mesh a = Some h -> h ∉ dom (scene.meshes sc)).

(** The scene holds the mesh [hs] of the ship and the meshes of the
    aircraft in flight, each once, and nothing else. *)
Definition fleet_ok (hs : nat) (ps : list Aircraft) (sc : scene.t) : Prop :=
  hs < scene.next sc /\
  NoDup (hs :: flying_meshes ps) /\
  dom (scene.meshes sc) = list_to_set (hs :: flying_meshes ps) /\
  Forall (plane_mesh_ok sc) ps.

Definition game_ok `{Framework} (g : Game) : Prop :=
  (exists hs, ship_mesh (ship g) = Some hs /\ fleet_ok hs (planes g) (world g)) /\
  Forall plane_ok (planes g) /\
  length (planes g) = 5 /\
  length (ship_input (ship g)) = Z.to_nat KEY_COUNT.

(** The order of the states in the life of an aircraft. *)
Definition succ_state (s : AircraftState) : AircraftState :=
  match s with
  | IDLE => TAKEOFF
  | TAKEOFF => FLY
  | FLY => HOVER
  | HOVER => LAND
  | LAND => REFUEL
  | REFUEL => IDLE
  end.

(** From one frame to the next the state stays or moves on by one. *)
Definition in_order (s s' : AircraftState) : bool :=
  bool_decide (s' = s) || bool_decide (s' = succ_state s).

(** The same, or the state falls back from [HOVER] to [FLY]. *)
Definition in_order_or_back (s s' : AircraftState) : bool :=
  in_order s s' || (bool_decide (s = HOVER) && bool_decide (s' = FLY)).

(** Every state of a list and the one after it are related. *)
Fixpoint adjacent (R : AircraftState -> AircraftState -> bool)
  (l : list AircraftState) : bool :=
  match l with
  | s :: rest =>
      match rest with
      | s' :: _ => R s s' && adjacent R rest
      | [] => true
      end
  | [] => true
  end.

Definition follows_sequence : list AircraftState -> bool := adjacent in_order.

Definition follows_sequence_or_falls_back : list AircraftState -> bool :=
  adjacent in_order_or_back.

(** What a click with the right button does to the states of the planes:
    the first idle one takes off. *)
Fixpoint first_idle_takes_off (l : list AircraftState) : list AircraftState :=
  match l with
  | [] => []
  | IDLE :: rest => TAKEOFF :: rest
  | s :: rest => s :: first_idle_takes_off rest
  end.

(** The transition table in the words of the spec: the state an update
    leaves an aircraft in, by the guards on the values the frame starts
    with, for the ship as it is when the aircraft is updated. *)
Definition state_after (owner : Ship) (dt : F32.float) (a : Aircraft)
  : AircraftState :=
  match state a with
  | IDLE => IDLE
  | TAKEOFF => if (flightTime a >=? F32.of_Z 2)%f32 then FLY else TAKEOFF
  | FLY =>
      if (distance (targetPosition a) (position a) <=? F32.of_Z 1)%f32
      then HOVER else FLY
  | HOVER =>
      if (distance (targetPosition a) (position a)
          >? F32.of_Z 1 + F32.dec 1 6)%f32 then FLY
      else if (flightTime a >=? F32.of_Z 10)%f32 then LAND else HOVER
  | LAND =>
      if (distance (ship_position owner) (position a) <=? F32.dec 1 1)%f32
      then REFUEL else LAND
  | REFUEL =>
      if (landingTime a + dt >? flightTime a + F32.of_Z 3)%f32
      then IDLE else REFUEL
  end.

(** The states of plane [i] after each frame of a list of frames. *)
Fixpoint states_along `{Libm} `{Framework} (i : nat) (dts : list F32.float)
  (g : Game) : list AircraftState :=
  match dts with
  | [] => []
  | dt :: dts =>
      let g := game_update dt g in
      match planes g !! i with
      | Some a => state a :: states_along i dts g
      | None => []
      end
  end.



(** ** Vocabulary of the further properties *)

(** The same number: equal, or zeros of either sign. *)
Definition same_number (a b : F32.float) : Prop :=
  a = b \/ (exists s s', a = S754_zero s /\ b = S754_zero s').

Definition same_point (p q : Vector2.t) : Prop :=
  same_number (Vector2.x p) (Vector2.x q) /\
  same_number (Vector2.y p) (Vector2.y q).

Definition finite_point (p : Vector2.t) : bool :=
  F32.is_finite (Vector2.x p) && F32.is_finite (Vector2.y p).

(** A key the assertions of [keyPressed] and [keyReleased] let pass. *)
Definition valid_key `{Framework} (key : Z) : Prop :=
  (0 <= key /\ key < KEY_COUNT)%Z.

(** The turn rate in the words of the spec: none at rest; under way, the
    left key before the right one. *)
Definition turn_rate `{Framework} (s : Ship) : F32.float :=
  if Ship_key s KEY_FORWARD || Ship_key s KEY_BACKWARD then
    if Ship_key s KEY_LEFT then F32.dec 5 1
    else if Ship_key s KEY_RIGHT then (- F32.dec 5 1)%f32
    else F32.zero
  else F32.zero.

(** The aircraft in flight, counted. *)
Definition airborne_count (ps : list Aircraft) : nat :=
  length (filter (fun a => Aircraft_inFlight a = true) ps).

(** Events that are neither key events nor restarts. *)
Definition quiet (e : Event) : bool :=
  match e with
  | MouseClicked _ _ _ | Update _ => true
  | KeyPressed _ | KeyReleased _ | Restart => false
  end.

(** A key event whose key fails the assertion. *)
Definition bad_key `{Framework} (e : Event) : Prop :=
  match e with
  | KeyPressed key | KeyReleased key => ~ valid_key key
  | MouseClicked _ _ _ | Update _ | Restart => False
  end.

(** The scene shows the visual behind [p] at [pos], turned by [ang]. *)
Definition shown_at (p : scene.MeshPtr) (pos : Vector2.t) (ang : F32.float)
  (sc : scene.t) : Prop :=
  exists h pl,
    p = Some h /\ scene.meshes sc !! h = Some pl /\
    scene.at_x pl = Vector2.x pos /\ scene.at_y pl = Vector2.y pos /\
    scene.at_angle pl = ang.

(** The timers of an aircraft: not negative, and the landing timer at zero
    outside [REFUEL]. *)
Definition timers_ok (a : Aircraft) : Prop :=
  not_negative (flightTime a) /\ not_negative (landingTime a) /\
  (state a <> REFUEL -> landingTime a = F32.zero).

(** Reduces the members of an aircraft after assignments, and nothing of
    the arithmetic. *)
Ltac members :=
  cbn [mesh position angle acceleration linearSpeed takeoffTime flightTime
       landingTime targetPosition hoverRaduis hoverAngle state
       set_mesh set_position set_angle set_linearSpeed set_flightTime
       set_landingTime set_targetPosition set_hoverAngle set_state
       fst snd] in *.

(** ** Concrete runs, on the reference [<cmath>] and framework *)

Module Runs.
#[local] Existing Instance ref_libm.
#[local] Existing Instance ref_framework.

Definition frame (n : Z) : Event := Update (F32.of_Z n).
Definition half : F32.float := F32.dec 5 1.
Definition rightClick : Event := MouseClicked F32.zero F32.zero false.
Definition leftClick (x y : Z) : Event :=
  MouseClicked (F32.of_Z x) (F32.of_Z y) true.

(** A whole flight of the first aircraft, ship and target at the origin:
    take-off, flight, hover, landing, refuelling. *)
Definition flight : list Event :=
  [rightClick; frame 1; frame 1; frame 1; frame 1; frame 1; frame 5;
   frame 1; Update half; frame 1].

Definition refuelling : option Game := start ≫= run flight.
Definition refuelled : option Game := refuelling ≫= run [frame 4].

(** The first aircraft of these two games: in the hangar after its flight,
    and idle again. *)
Definition refuelling_game : Game := default game_static refuelling.
Definition refuelling_plane : Aircraft :=
  default Aircraft_static (planes refuelling_game !! 0).
Definition refuelled_game : Game := default game_static refuelled.
Definition refuelled_plane : Aircraft :=
  default Aircraft_static (planes refuelled_game !! 0).

(** The aircraft in the hangar, one frame on. *)
Definition still_refuelling : Aircraft :=
  default Aircraft_static (planes (game_update (F32.of_Z 1) refuelling_game) !! 0).

(** The ship sails 32 units along the x axis, the target is set 4 units
    ahead of it and the first aircraft is launched. *)
Definition far_out : list Event :=
  [KeyPressed 0] ++ replicate 32 (frame 2) ++
  [KeyReleased 0; leftClick 36 0; rightClick].

Definition launched_far_out : option Game := start ≫= run far_out.

(** No frame of more than 2, the shortest of the durations of the game. *)
Definition at_most_2 (e : Event) : bool :=
  match e with
  | Update dt => (dt <=? F32.of_Z 2)%f32
  | _ => true
  end.

Definition hover_frames : list F32.float :=
  [F32.of_Z 1; F32.of_Z 1; F32.of_Z 1; F32.of_Z 1; half; half; half; half].



(** The first aircraft in the air. *)
Definition airborne : list Event := [rightClick; frame 1].
Definition airborne_game : Game := default game_static (start ≫= run airborne).
Definition airborne_plane : Aircraft :=
  default Aircraft_static (planes airborne_game !! 0).

(** The game as [init] leaves it. *)
Definition initial_game : Game := default game_static start.
Definition idle_plane : Aircraft :=
  default Aircraft_static (planes initial_game !! 0).

(** An aircraft on its circle around the origin, and a ship at rest with
    the left key held. *)
Definition circling : Aircraft :=
  mkAircraft (Some 1) (Vector2.mk (F32.of_Z 1) F32.zero) F32.zero (F32.of_Z 1)
    (F32.of_Z 2) (F32.of_Z 2) (F32.of_Z 4) F32.zero Vector2.zero (F32.of_Z 1)
    F32.zero HOVER.

Definition turning_at_rest : Ship :=
  mkShip (Some 0) Vector2.zero F32.zero F32.zero [false; false; true; false].
End Runs.

(** Further concrete values, on the same reference. *)
Module MoreRuns.
#[local] Existing Instance ref_libm.
#[local] Existing Instance ref_framework.

(** A ship under way with the left and the right key both held. *)
Definition both_turn_keys : Ship :=
  mkShip (Some 0) Vector2.zero F32.zero F32.zero [true; false; true; true].

(** A ship at rest away from the origin, no key held. *)
Definition at_anchor : Ship :=
  mkShip (Some 0) (Vector2.mk (F32.of_Z 3) (F32.of_Z (-4))) (F32.dec 5 1)
    F32.zero [false; false; false; false].

(** An aircraft that flies and has reached its target, and one that
    refuels. *)
Definition arrived : Aircraft :=
  mkAircraft (Some 1) (Vector2.mk (F32.of_Z 3) (F32.of_Z 4)) (F32.dec 5 1)
    (F32.of_Z 1) (F32.of_Z 2) (F32.of_Z 2) (F32.of_Z 4) F32.zero
    (Vector2.mk (F32.of_Z 3) (F32.of_Z 4)) (F32.of_Z 1) F32.zero FLY.

Definition in_the_hangar : Aircraft :=
  mkAircraft (Some 1) (Vector2.mk (F32.of_Z 3) (F32.of_Z 4)) (F32.dec 5 1)
    (F32.of_Z 1) (F32.of_Z 2) (F32.of_Z 2) (F32.of_Z 11) (F32.of_Z 11)
    Vector2.zero (F32.of_Z 1) F32.zero REFUEL.

(** Frames and clicks, no key event. *)
Definition quiet_events : list Event :=
  [Runs.rightClick; Runs.frame 1; Runs.leftClick 3 4; Runs.frame 1].

(** The forward key held, the first aircraft launched. *)
Definition under_way_launched : list Event :=
  [KeyPressed 0; Runs.rightClick].
Definition taking_off_game : Game :=
  default game_static (start ≫= run under_way_launched).
Definition taking_off_plane : Aircraft :=
  default Aircraft_static (planes taking_off_game !! 0).

(** An aircraft that lands, over the ship at anchor. *)
Definition touching_down : Aircraft :=
  mkAircraft (Some 1) (Vector2.mk (F32.of_Z 3) (F32.of_Z (-4))) (F32.dec 5 1)
    (F32.of_Z 1) (F32.of_Z 2) (F32.of_Z 2) (F32.of_Z 11) F32.zero
    Vector2.zero (F32.of_Z 1) F32.zero LAND.
End MoreRuns.


(** ** The constants and the reference [<cmath>] at a few points *)

Example PI_bits : params.PI = S754_finite false 13176795 (-22).
Proof. reflexivity. Qed.

Example tenth_bits : F32.dec 1 1 = S754_finite false 13421773 (-27).
Proof. reflexivity. Qed.

Example errorTolerance_bits : errorTolerance = S754_finite false 8796093 (-43).
Proof. reflexivity. Qed.

Example hover_limit_bits :
  (F32.of_Z 1 + errorTolerance)%f32 = S754_finite false 8388616 (-23).
Proof. reflexivity. Qed.

Example cos_PI : RefLibm.cos params.PI = (- F32.of_Z 1)%f32.
Proof. vm_compute. reflexivity. Qed.

Example sin_PI : RefLibm.sin params.PI = S754_finite true 12303662 (-47).
Proof. vm_compute. reflexivity. Qed.

Example atan2_behind : RefLibm.atan2 F32.zero (F32.of_Z (-3)) = params.PI.
Proof. vm_compute. reflexivity. Qed.

Example atan2_diagonal :
  RefLibm.atan2 (F32.of_Z 1) (F32.of_Z 1) = (params.PI / F32.of_Z 4)%f32.
Proof. vm_compute. reflexivity. Qed.

(** The scenario of the spec: forward held for one frame of 1.0 takes the
    ship from the origin to (0.5, 0). *)
Example forward_for_one_frame :
  (g ← @start ref_framework;
   g ← @run ref_libm ref_framework [KeyPressed 0; Update (F32.of_Z 1)] g;
   Some (ship_position (ship g)))
  = Some (Vector2.mk (F32.dec 5 1) F32.zero).
Proof. vm_compute. reflexivity. Qed.

(** ** binary32: signs *)

Lemma binary_round_aux_sign sx mx ex lx :
  match binary_round_aux F32.prec F32.emax sx mx ex lx with
  | S754_zero s | S754_infinity s | S754_finite s _ _ => s = sx
  | S754_nan => True
  end.
Proof.
  unfold binary_round_aux.
  destruct (shr_fexp _ _ mx ex lx) as [mrs' e'].
  destruct (shr_fexp _ _ _ e' loc_Exact) as [mrs'' e''].
  destruct (shr_m mrs''); [done | | done].
  by destruct (e'' <=? _)%Z.
Qed.

Lemma binary_round_aux_not_negative mx ex lx :
  not_negative (binary_round_aux F32.prec F32.emax false mx ex lx).
Proof.
  pose proof (binary_round_aux_sign false mx ex lx) as Hs.
  by destruct (binary_round_aux _ _ _ _ _ _).
Qed.

Lemma mul_not_negative (a b : F32.float) :
  not_negative a -> not_negative b -> not_negative (a * b)%f32.
Proof.
  destruct a as [sa|sa| |sa ma ea], b as [sb|sb| |sb mb eb]; simpl;
    intros Ha Hb; subst; try done.
  apply binary_round_aux_not_negative.
Qed.

Lemma add_not_negative (a b : F32.float) :
  not_negative a -> not_negative b -> not_negative (a + b)%f32.
Proof.
  destruct a as [sa|sa| |sa ma ea], b as [sb|sb| |sb mb eb]; simpl;
    intros Ha Hb; subst; try done.
  - by destruct sa, sb.
  - unfold F32.add, SFadd, binary_normalize, binary_round. simpl.
    destruct (shl_align _ _ _) as [mz ez].
    apply binary_round_aux_not_negative.
Qed.

Lemma leb_zero_not_negative (a : F32.float) :
  (F32.zero <=? a)%f32 = true -> not_negative a.
Proof. by destruct a as [s|[]| |[] m e]. Qed.

Lemma not_negative_leb_zero (a b : F32.float) :
  not_negative a -> (a <=? b)%f32 = true -> (F32.zero <=? a)%f32 = true.
Proof.
  by destruct a as [s|s| |s m e]; simpl; intros Ha Hb; subst.
Qed.

Section AircraftFacts.
Context `{Libm}.

(** An assignment that keeps the members [init] fixes, and keeps an
    aircraft that is not idle from becoming idle and an idle one at its
    zeros, keeps [plane_ok]. *)
Lemma plane_ok_frame a a' :
  plane_ok a ->
  acceleration a' = acceleration a -> takeoffTime a' = takeoffTime a ->
  hoverRaduis a' = hoverRaduis a ->
  (state a' = IDLE ->
   state a = IDLE /\ linearSpeed a' = linearSpeed a /\
   flightTime a' = flightTime a) ->
  plane_ok a'.
Proof.
  intros (Hacc & Htk & Hr & Hidle) E1 E2 E3 Hst.
  unfold plane_ok. rewrite E1, E2, E3.
  split; [done|]. split; [done|]. split; [done|].
  intros Hi'. destruct (Hst Hi') as (Hi & -> & ->). by apply Hidle.
Qed.

Lemma speed_in_range_frame a a' :
  speed_in_range a -> linearSpeed a' = linearSpeed a -> speed_in_range a'.
Proof. unfold speed_in_range. by intros ? ->. Qed.

(** *** The members [simulateFlight] leaves alone *)

Lemma simulateFlight_state dt a sc :
  state (Aircraft_simulateFlight dt a sc).1 = state a.
Proof.
  unfold Aircraft_simulateFlight.
  destruct (negb (Aircraft_inFlight a)); [done|].
  by destruct (_ <=? _)%f32.
Qed.

Lemma simulateFlight_mesh dt a sc :
  mesh (Aircraft_simulateFlight dt a sc).1 = mesh a.
Proof.
  unfold Aircraft_simulateFlight.
  destruct (negb (Aircraft_inFlight a)); [done|].
  by destruct (_ <=? _)%f32.
Qed.

Lemma simulateFlight_pose dt a sc :
  let a' := (Aircraft_simulateFlight dt a sc).1 in
  position a' = position a /\ angle a' = angle a /\
  hoverAngle a' = hoverAngle a /\ targetPosition a' = targetPosition a.
Proof.
  unfold Aircraft_simulateFlight.
  destruct (negb (Aircraft_inFlight a)); [done|].
  by destruct (_ <=? _)%f32.
Qed.

Lemma inFlight_state a :
  Aircraft_inFlight a = true <-> state a <> IDLE /\ state a <> REFUEL.
Proof. unfold Aircraft_inFlight. destruct (state a); compute; intuition congruence. Qed.

Lemma inFlight_false a :
  Aircraft_inFlight a = false <-> state a = IDLE \/ state a = REFUEL.
Proof. unfold Aircraft_inFlight. destruct (state a); compute; intuition congruence. Qed.

(** *** The speed stays in its range *)

Lemma simulateFlight_plane_ok dt a sc :
  plane_ok a -> plane_ok (Aircraft_simulateFlight dt a sc).1.
Proof.
  intros Hok. unfold Aircraft_simulateFlight.
  destruct (Aircraft_inFlight a) eqn:Hfl; simpl; [|done].
  apply inFlight_state in Hfl as [Hni _].
  apply (plane_ok_frame a); [done|..];
    destruct (linearSpeed a + _ <=? _)%f32; members; congruence.
Qed.

Lemma simulateFlight_speed dt a sc :
  elapsed dt = true -> acceleration a = F32.of_Z 1 -> speed_in_range a ->
  speed_in_range (Aircraft_simulateFlight dt a sc).1.
Proof.
  intros Hdt Hacc [Hlo Hhi]. unfold Aircraft_simulateFlight.
  destruct (Aircraft_inFlight a) eqn:Hfl; simpl; [|done].
  assert (not_negative (linearSpeed a + acceleration a * dt)%f32) as Hnn.
  { apply add_not_negative; [by apply leb_zero_not_negative|].
    apply mul_not_negative; [by rewrite Hacc|by apply leb_zero_not_negative]. }
  destruct (linearSpeed a + _ <=? _)%f32 eqn:Hle; simpl.
  - split; [|done]. by eapply not_negative_leb_zero.
  - done.
Qed.

(** *** One update of one aircraft *)

Lemma Aircraft_update_state owner dt a sc :
  takeoffTime a = F32.of_Z 2 -> hoverRaduis a = F32.of_Z 1 ->
  state (Aircraft_update owner dt a sc).1 = state_after owner dt a.
Proof.
  intros Htk Hr. unfold Aircraft_update, state_after, distance.
  destruct (state a) eqn:Hst; simpl.
  - by rewrite simulateFlight_state.
  - rewrite simulateFlight_state. unfold Aircraft_takeoff. rewrite Htk.
    by destruct (_ >=? _)%f32.
  - rewrite simulateFlight_state. unfold Aircraft_fly. rewrite Hr.
    by destruct (_ <=? _)%f32.
  - rewrite simulateFlight_state. unfold Aircraft_hover. rewrite Hr.
    destruct (_ >? _)%f32; [done|].
    by destruct (_ >=? _)%f32.
  - unfold Aircraft_land, Ship_getPosition.
    destruct (_ <=? _)%f32; by rewrite simulateFlight_state.
  - rewrite simulateFlight_state. unfold Aircraft_refuel. simpl.
    by destruct (_ >? _)%f32.
Qed.

Lemma Aircraft_update_mesh owner dt a sc :
  mesh (Aircraft_update owner dt a sc).1 = mesh a.
Proof.
  unfold Aircraft_update.
  destruct (state a) eqn:Hst; simpl; try rewrite simulateFlight_mesh.
  - done.
  - unfold Aircraft_takeoff. by destruct (_ >=? _)%f32.
  - unfold Aircraft_fly. by destruct (_ <=? _)%f32.
  - unfold Aircraft_hover. destruct (_ >? _)%f32; [done|].
    by destruct (_ >=? _)%f32.
  - unfold Aircraft_land.
    destruct (_ <=? _)%f32; by rewrite simulateFlight_mesh.
  - unfold Aircraft_refuel. simpl. by destruct (_ >? _)%f32.
Qed.

Lemma Aircraft_update_plane_ok owner dt a sc :
  plane_ok a -> plane_ok (Aircraft_update owner dt a sc).1.
Proof.
  intros Hok. unfold Aircraft_update.
  destruct (state a) eqn:Hst; members.
  - by apply simulateFlight_plane_ok.
  - apply simulateFlight_plane_ok.
    apply (plane_ok_frame a); [done|unfold Aircraft_takeoff..];
      destruct (_ >=? _)%f32; members; congruence.
  - apply simulateFlight_plane_ok.
    apply (plane_ok_frame a); [done|unfold Aircraft_fly..];
      destruct (_ <=? _)%f32; members; congruence.
  - apply simulateFlight_plane_ok.
    apply (plane_ok_frame a); [done|unfold Aircraft_hover..];
      (destruct (_ >? _)%f32; [|destruct (_ >=? _)%f32]); members; congruence.
  - unfold Aircraft_land.
    destruct (_ <=? _)%f32; apply simulateFlight_plane_ok;
      apply (plane_ok_frame a); members; congruence.
  - apply simulateFlight_plane_ok.
    unfold Aircraft_refuel. members.
    destruct (_ >? _)%f32; [|apply (plane_ok_frame a); members; congruence].
    destruct Hok as (Hacc & Htk & Hr & _).
    by repeat split; members.
Qed.

Lemma Aircraft_update_speed owner dt a sc :
  elapsed dt = true -> plane_ok a -> speed_in_range a ->
  speed_in_range (Aircraft_update owner dt a sc).1.
Proof.
  intros Hdt (Hacc & _) Hsp. unfold Aircraft_update.
  destruct (state a) eqn:Hst; members.
  - by apply simulateFlight_speed.
  - apply simulateFlight_speed; [done|unfold Aircraft_takeoff..];
      [|apply (speed_in_range_frame a); [done|]];
      by destruct (_ >=? _)%f32.
  - apply simulateFlight_speed; [done|unfold Aircraft_fly..];
      [|apply (speed_in_range_frame a); [done|]];
      by destruct (_ <=? _)%f32.
  - apply simulateFlight_speed; [done|unfold Aircraft_hover..];
      [|apply (speed_in_range_frame a); [done|]];
      (destruct (_ >? _)%f32; [|destruct (_ >=? _)%f32]); by members.
  - unfold Aircraft_land.
    destruct (_ <=? _)%f32; (apply simulateFlight_speed; [done|done|]);
      by apply (speed_in_range_frame a).
  - apply simulateFlight_speed; [done|unfold Aircraft_refuel..]; members.
    + by destruct (_ >? _)%f32.
    + destruct (_ >? _)%f32; [done|]. by apply (speed_in_range_frame a).
Qed.

Lemma inFlight_by_state a b :
  state a = state b -> Aircraft_inFlight a = Aircraft_inFlight b.
Proof. unfold Aircraft_inFlight. by intros ->. Qed.

Lemma simulateFlight_inFlight dt a sc :
  Aircraft_inFlight (Aircraft_simulateFlight dt a sc).1 = Aircraft_inFlight a.
Proof. apply inFlight_by_state, simulateFlight_state. Qed.

Lemma placeMesh_scene p x y ang sc :
  scene.next (scene.placeMesh p x y ang sc) = scene.next sc /\
  dom (scene.meshes (scene.placeMesh p x y ang sc)) = dom (scene.meshes sc).
Proof. destruct p as [h|]; [|done]. split; [done|]. apply dom_alter_L. Qed.

Lemma destroyMesh_scene p sc :
  scene.next (scene.destroyMesh p sc) = scene.next sc /\
  dom (scene.meshes (scene.destroyMesh p sc)) =
    dom (scene.meshes sc) ∖ from_option singleton ∅ p.
Proof.
  destruct p as [h|]; simpl; (split; [done|]).
  - apply dom_delete_L.
  - by rewrite difference_empty_L.
Qed.

Lemma simulateFlight_scene dt a sc :
  scene.next (Aircraft_simulateFlight dt a sc).2 = scene.next sc /\
  dom (scene.meshes (Aircraft_simulateFlight dt a sc).2) = dom (scene.meshes sc).
Proof.
  unfold Aircraft_simulateFlight.
  destruct (negb (Aircraft_inFlight a)); [done|]. apply placeMesh_scene.
Qed.

(** What one update does to the scene: it places the mesh of an aircraft in
    flight, and at the landing it destroys it. *)
Lemma Aircraft_update_scene owner dt a sc :
  let a' := (Aircraft_update owner dt a sc).1 in
  let sc' := (Aircraft_update owner dt a sc).2 in
  scene.next sc' = scene.next sc /\
  (Aircraft_inFlight a' = true -> Aircraft_inFlight a = true) /\
  dom (scene.meshes sc') =
    (if Aircraft_inFlight a && negb (Aircraft_inFlight a')
     then dom (scene.meshes sc) ∖ from_option singleton ∅ (mesh a)
     else dom (scene.meshes sc)).
Proof.
  unfold Aircraft_update.
  destruct (state a) eqn:Hst; members.
  - rewrite simulateFlight_inFlight.
    destruct (simulateFlight_scene dt a sc) as [-> ->].
    by rewrite andb_negb_r.
  - destruct (simulateFlight_scene dt (Aircraft_takeoff owner dt a) sc) as [-> ->].
    rewrite simulateFlight_inFlight.
    assert (Aircraft_inFlight a = true) as -> by (by apply inFlight_state; rewrite Hst).
    assert (Aircraft_inFlight (Aircraft_takeoff owner dt a) = true) as ->; [|done].
    apply inFlight_state. unfold Aircraft_takeoff.
    destruct (_ >=? _)%f32; members; by rewrite ?Hst.
  - destruct (simulateFlight_scene dt (Aircraft_fly dt a) sc) as [-> ->].
    rewrite simulateFlight_inFlight.
    assert (Aircraft_inFlight a = true) as -> by (by apply inFlight_state; rewrite Hst).
    assert (Aircraft_inFlight (Aircraft_fly dt a) = true) as ->; [|done].
    apply inFlight_state. unfold Aircraft_fly.
    destruct (_ <=? _)%f32; members; by rewrite ?Hst.
  - destruct (simulateFlight_scene dt (Aircraft_hover dt a) sc) as [-> ->].
    rewrite simulateFlight_inFlight.
    assert (Aircraft_inFlight a = true) as -> by (by apply inFlight_state; rewrite Hst).
    assert (Aircraft_inFlight (Aircraft_hover dt a) = true) as ->; [|done].
    apply inFlight_state. unfold Aircraft_hover.
    (destruct (_ >? _)%f32; [|destruct (_ >=? _)%f32]); members; by rewrite ?Hst.
  - assert (Aircraft_inFlight a = true) as -> by (by apply inFlight_state; rewrite Hst).
    unfold Aircraft_land. destruct (_ <=? _)%f32; members.
    + match goal with
      | |- context [Aircraft_simulateFlight dt ?b ?s] =>
          destruct (simulateFlight_scene dt b s) as [-> ->];
          rewrite (simulateFlight_inFlight dt b s);
          assert (Aircraft_inFlight b = false) as -> by (by apply inFlight_false; right)
      end.
      split; [apply destroyMesh_scene|]. split; [done|]. apply destroyMesh_scene.
    + match goal with
      | |- context [Aircraft_simulateFlight dt ?b ?s] =>
          destruct (simulateFlight_scene dt b s) as [-> ->];
          rewrite (simulateFlight_inFlight dt b s);
          assert (Aircraft_inFlight b = true) as ->
            by (by apply inFlight_state; members; rewrite Hst)
      end.
      done.
  - assert (Aircraft_inFlight a = false) as -> by (by apply inFlight_false; right).
    destruct (simulateFlight_scene dt (Aircraft_refuel dt a) sc) as [-> ->].
    rewrite simulateFlight_inFlight. split; [done|]. split; [|done].
    intros Hfl. apply inFlight_state in Hfl as [Hi Hr].
    unfold Aircraft_refuel in Hi, Hr. members.
    destruct (_ >? _)%f32; members; congruence.
Qed.
End AircraftFacts.

Section FleetFacts.
Context `{Libm}.

(** *** Loops over the planes *)

Lemma for_each_fst body (f : Aircraft -> Aircraft) ps sc :
  (forall a sc, (body a sc).1 = f a) -> (for_each body ps sc).1 = f <$> ps.
Proof.
  intros Hf. revert sc. induction ps as [|a ps IH]; intros sc; [done|].
  simpl. specialize (Hf a sc). destruct (body a sc) as [a' sc1].
  specialize (IH sc1). destruct (for_each body ps sc1) as [ps' sc2].
  simpl in *. by rewrite Hf, IH.
Qed.

(** The aircraft never reads the scene. *)
Lemma simulateFlight_any_scene dt a sc sc0 :
  (Aircraft_simulateFlight dt a sc).1 = (Aircraft_simulateFlight dt a sc0).1.
Proof. unfold Aircraft_simulateFlight. by destruct (negb _). Qed.

Lemma Aircraft_update_any_scene owner dt a sc sc0 :
  (Aircraft_update owner dt a sc).1 = (Aircraft_update owner dt a sc0).1.
Proof.
  unfold Aircraft_update.
  destruct (state a); try apply simulateFlight_any_scene.
  unfold Aircraft_land. destruct (_ <=? _)%f32; apply simulateFlight_any_scene.
Qed.

Lemma flying_meshes_app l1 l2 :
  flying_meshes (l1 ++ l2) = flying_meshes l1 ++ flying_meshes l2.
Proof. apply omap_app. Qed.

Lemma flying_meshes_cons a l :
  flying_meshes (a :: l) =
    match flying_mesh a with Some h => h :: flying_meshes l | None => flying_meshes l end.
Proof. done. Qed.

Lemma plane_mesh_ok_shrink sc sc' a :
  scene.next sc' = scene.next sc ->
  dom (scene.meshes sc') ⊆ dom (scene.meshes sc) ->
  plane_mesh_ok sc a -> plane_mesh_ok sc' a.
Proof.
  intros Hn Hd (Hfl & Hlt & Hout). split; [|split].
  - done.
  - intros h Hh. rewrite Hn. by apply Hlt.
  - intros Hnf h Hh Hin. by apply (Hout Hnf h Hh), Hd.
Qed.

(** One plane of the fleet updated in place. *)
Lemma fleet_ok_step hs front a a' rest sc sc' :
  fleet_ok hs (front ++ a :: rest) sc ->
  mesh a' = mesh a ->
  scene.next sc' = scene.next sc ->
  (Aircraft_inFlight a' = true -> Aircraft_inFlight a = true) ->
  dom (scene.meshes sc') =
    (if Aircraft_inFlight a && negb (Aircraft_inFlight a')
     then dom (scene.meshes sc) ∖ from_option singleton ∅ (mesh a)
     else dom (scene.meshes sc)) ->
  fleet_ok hs (front ++ a' :: rest) sc'.
Proof.
  intros (Hhs & Hnd & Hdom & Hall) Hm Hn Hmono Hd.
  apply Forall_app in Hall as [Hdone Hrest].
  apply Forall_cons in Hrest as [Ha Hrest].
  rewrite flying_meshes_app, flying_meshes_cons in Hnd, Hdom.
  unfold fleet_ok. rewrite flying_meshes_app, flying_meshes_cons, Hn.
  unfold flying_mesh in *. rewrite Hm.
  destruct (Aircraft_inFlight a) eqn:Hfa, (Aircraft_inFlight a') eqn:Hfa';
    simpl in Hd.
  - rewrite <- Hd in Hdom. repeat split; try done.
    apply Forall_app; split; [|apply Forall_cons; split].
    + eapply Forall_impl; [done|]. intros b. apply plane_mesh_ok_shrink; [done|by rewrite Hd].
    + destruct Ha as (Hfl & Hlt & Hout). split; [|split].
      * rewrite Hm. auto.
      * intros h' Hh'. rewrite Hm in Hh'. rewrite Hn. by apply Hlt.
      * intros; congruence.
    + eapply Forall_impl; [done|]. intros b. apply plane_mesh_ok_shrink; [done|by rewrite Hd].
  - destruct Ha as (Hfl & Hlt & Hout). destruct (Hfl Hfa) as [h Hh].
    rewrite Hh in *. simpl in Hd.
    apply NoDup_cons in Hnd as [Hhs_notin Hnd].
    apply NoDup_app in Hnd as (Hnd1 & Hdisj & Hnd2).
    apply NoDup_cons in Hnd2 as [Hh_notin Hnd2].
    assert (h ≠ hs) as Hne by (intros ->; apply Hhs_notin; set_solver).
    assert (h ∉ flying_meshes front) as Hh_done by (intros Hin; apply (Hdisj _ Hin); set_solver).
    repeat split; try done.
    + apply NoDup_cons; split; [set_solver|].
      apply NoDup_app; repeat split; [done| |done]. intros x Hx Hx'. apply (Hdisj _ Hx). set_solver.
    + rewrite Hd, Hdom. set_solver.
    + apply Forall_app; split; [|apply Forall_cons; split].
      * eapply Forall_impl; [done|]. intros b. apply plane_mesh_ok_shrink; [done|]. rewrite Hd. set_solver.
      * split; [|split].
        -- intros; congruence.
        -- intros h' Hh'. rewrite Hm in Hh'. rewrite Hn. by apply Hlt.
        -- intros _ h' Hh'. rewrite Hm in Hh'. injection Hh' as <-. rewrite Hd. set_solver.
      * eapply Forall_impl; [done|]. intros b. apply plane_mesh_ok_shrink; [done|]. rewrite Hd. set_solver.
  - by specialize (Hmono eq_refl).
  - rewrite <- Hd in Hdom. repeat split; try done.
    apply Forall_app; split; [|apply Forall_cons; split].
    + eapply Forall_impl; [done|]. intros b. apply plane_mesh_ok_shrink; [done|by rewrite Hd].
    + destruct Ha as (Hfl & Hlt & Hout). split; [|split].
      * intros; congruence.
      * intros h' Hh'. rewrite Hm in Hh'. rewrite Hn. by apply Hlt.
      * intros _ h' Hh'. rewrite Hm in Hh'. rewrite Hd. by apply Hout.
    + eapply Forall_impl; [done|]. intros b. apply plane_mesh_ok_shrink; [done|by rewrite Hd].
Qed.

Lemma for_each_fleet_ok hs owner dt ps front sc :
  fleet_ok hs (front ++ ps) sc ->
  fleet_ok hs (front ++ (for_each (Aircraft_update owner dt) ps sc).1)
    (for_each (Aircraft_update owner dt) ps sc).2.
Proof.
  revert front sc. induction ps as [|a ps IH]; intros front sc Hok; [done|].
  simpl.
  pose proof (Aircraft_update_mesh owner dt a sc) as Hm.
  pose proof (Aircraft_update_scene owner dt a sc) as (Hn & Hmono & Hd).
  destruct (Aircraft_update owner dt a sc) as [a' sc1]. simpl in *.
  pose proof (fleet_ok_step _ _ _ _ _ _ _ Hok Hm Hn Hmono Hd) as Hok1.
  rewrite cons_middle, app_assoc in Hok1. apply IH in Hok1.
  destruct (for_each _ ps sc1) as [ps' sc2]. simpl in *.
  by rewrite cons_middle, app_assoc.
Qed.

(** *** The launch *)

Lemma launch_first_spec owner ps sc :
  let r := launch_first owner ps sc in
  (Forall (fun a => Aircraft_readyToFly a = false) ps /\ r = (ps, sc)) \/
  (exists front a rest,
      ps = front ++ a :: rest /\
      Forall (fun a => Aircraft_readyToFly a = false) front /\
      Aircraft_readyToFly a = true /\
      r = ((front ++ (Aircraft_launch owner a sc).1 :: rest),
           (Aircraft_launch owner a sc).2)).
Proof.
  induction ps as [|a ps IH]; simpl; [by left|].
  destruct (Aircraft_readyToFly a) eqn:Hready.
  - right. exists [], a, ps. simpl.
    by destruct (Aircraft_launch owner a sc).
  - destruct IH as [[Hnone Hr]|(front & b & rest & -> & Hdone & Hb & Hr)].
    + left. rewrite Hr. split; [by constructor|done].
    + right. exists (a :: front), b, rest. rewrite Hr. simpl.
      repeat split; try done. by constructor.
Qed.

Lemma launch_fields owner a sc :
  let a' := (Aircraft_launch owner a sc).1 in
  let sc' := (Aircraft_launch owner a sc).2 in
  mesh a' = Some (scene.next sc) /\
  position a' = ship_position owner /\ angle a' = ship_angle owner /\
  state a' = TAKEOFF /\
  acceleration a' = acceleration a /\ linearSpeed a' = linearSpeed a /\
  takeoffTime a' = takeoffTime a /\ flightTime a' = flightTime a /\
  landingTime a' = landingTime a /\ targetPosition a' = targetPosition a /\
  hoverRaduis a' = hoverRaduis a /\ hoverAngle a' = hoverAngle a /\
  scene.next sc' = S (scene.next sc) /\
  dom (scene.meshes sc') = {[scene.next sc]} ∪ dom (scene.meshes sc).
Proof.
  unfold Aircraft_launch, scene.createAircraftMesh, scene.createMesh,
    Ship_getPosition, Ship_getAngle. members.
  repeat split; try done.
  simpl. by rewrite dom_alter_L, dom_insert_L.
Qed.

Lemma readyToFly_state a : Aircraft_readyToFly a = true <-> state a = IDLE.
Proof. unfold Aircraft_readyToFly. apply bool_decide_eq_true. Qed.

Lemma fleet_ok_bound hs ps sc h :
  fleet_ok hs ps sc -> h ∈ dom (scene.meshes sc) -> h < scene.next sc.
Proof.
  intros (Hhs & _ & Hdom & Hall). rewrite Hdom.
  rewrite list_to_set_cons, elem_of_union, elem_of_singleton, elem_of_list_to_set.
  intros [->|Hin]; [done|].
  apply list_elem_of_omap in Hin as (a & Ha & Hfm).
  rewrite Forall_forall in Hall. destruct (Hall a Ha) as (_ & Hlt & _).
  unfold flying_mesh in Hfm. destruct (Aircraft_inFlight a); [|done]. by apply Hlt.
Qed.

Lemma plane_mesh_ok_grow sc sc' a :
  scene.next sc' = S (scene.next sc) ->
  dom (scene.meshes sc') = {[scene.next sc]} ∪ dom (scene.meshes sc) ->
  plane_mesh_ok sc a -> plane_mesh_ok sc' a.
Proof.
  intros Hn Hd (Hfl & Hlt & Hout). split; [|split].
  - done.
  - intros h Hh. rewrite Hn. specialize (Hlt h Hh). lia.
  - intros Hnf h Hh. rewrite Hd. specialize (Hlt h Hh).
    specialize (Hout Hnf h Hh). set_solver by lia.
Qed.

Lemma launch_first_fleet_ok hs owner ps sc :
  fleet_ok hs ps sc ->
  fleet_ok hs (launch_first owner ps sc).1 (launch_first owner ps sc).2.
Proof.
  intros Hok.
  destruct (launch_first_spec owner ps sc)
    as [[_ ->]|(front & a & rest & -> & _ & Hready & ->)]; [done|].
  pose proof (launch_fields owner a sc)
    as (Hm & _ & _ & Hst & _ & _ & _ & _ & _ & _ & _ & _ & Hn & Hd).
  cbn [fst snd]. set (a' := (Aircraft_launch owner a sc).1) in *.
  set (sc' := (Aircraft_launch owner a sc).2) in *.
  assert (scene.next sc ∉ dom (scene.meshes sc)) as Hfresh.
  { intros Hin. apply (fleet_ok_bound _ _ _ _ Hok) in Hin. lia. }
  destruct Hok as (Hhs & Hnd & Hdom & Hall).
  apply Forall_app in Hall as [Hdone Hrest].
  apply Forall_cons in Hrest as [Ha Hrest].
  apply readyToFly_state in Hready.
  assert (Aircraft_inFlight a = false) as Hfa by (apply inFlight_false; by left).
  assert (Aircraft_inFlight a' = true) as Hfa' by (apply inFlight_state; by rewrite Hst).
  rewrite flying_meshes_app, flying_meshes_cons in Hnd, Hdom.
  unfold fleet_ok. rewrite flying_meshes_app, flying_meshes_cons.
  unfold flying_mesh in *. rewrite Hfa in Hnd, Hdom. rewrite Hfa', Hm, Hn, Hd.
  rewrite Hdom in Hfresh.
  apply NoDup_cons in Hnd as [Hhs_notin Hnd].
  apply NoDup_app in Hnd as (Hnd1 & Hdisj & Hnd2).
  repeat split.
  - lia.
  - apply NoDup_cons; split; [set_solver|].
    apply NoDup_app; repeat split; [done|set_solver|].
    apply NoDup_cons; split; [set_solver|done].
  - rewrite Hdom. set_solver.
  - apply Forall_app; split; [|apply Forall_cons; split].
    + eapply Forall_impl; [done|]. intros b. by apply plane_mesh_ok_grow.
    + split; [|split].
      * by rewrite Hm.
      * intros h. rewrite Hm, Hn. intros [= <-]. lia.
      * intros; congruence.
    + eapply Forall_impl; [done|]. intros b. by apply plane_mesh_ok_grow.
Qed.
End FleetFacts.

Section GameFacts.
Context `{Libm} `{Framework}.

(** *** The entry points, with the pairs taken apart *)

Lemma game_update_eq dt g :
  let s := (Ship_update dt (ship g) (world g)).1 in
  let sc := (Ship_update dt (ship g) (world g)).2 in
  game_update dt g =
    mkGame s (for_each (Aircraft_update s dt) (planes g) sc).1
      (for_each (Aircraft_update s dt) (planes g) sc).2.
Proof.
  unfold game_update. destruct (Ship_update dt (ship g) (world g)) as [s sc].
  simpl. by destruct (for_each _ _ _).
Qed.

Lemma game_update_planes dt g :
  planes (game_update dt g) =
    (fun a => (Aircraft_update (ship (game_update dt g)) dt a scene.empty).1)
      <$> planes g.
Proof.
  rewrite game_update_eq. cbn [planes ship].
  apply for_each_fst. intros a sc. apply Aircraft_update_any_scene.
Qed.

Lemma Ship_update_fields dt s sc :
  let s' := (Ship_update dt s sc).1 in
  let sc' := (Ship_update dt s sc).2 in
  ship_mesh s' = ship_mesh s /\ ship_input s' = ship_input s /\
  scene.next sc' = scene.next sc /\
  dom (scene.meshes sc') = dom (scene.meshes sc).
Proof. unfold Ship_update. cbn [fst snd ship_mesh ship_input].
  split; [done|]. split; [done|]. apply placeMesh_scene. Qed.

Lemma fleet_ok_scene hs ps sc sc' :
  scene.next sc' = scene.next sc ->
  dom (scene.meshes sc') = dom (scene.meshes sc) ->
  fleet_ok hs ps sc -> fleet_ok hs ps sc'.
Proof.
  intros Hn Hd (Hhs & Hnd & Hdom & Hall). unfold fleet_ok.
  rewrite Hn, Hd. repeat split; try done.
  eapply Forall_impl; [done|]. intros a.
  apply plane_mesh_ok_shrink; [done|by rewrite Hd].
Qed.

Lemma flying_meshes_fmap (f : Aircraft -> Aircraft) ps :
  (forall a, state (f a) = state a /\ mesh (f a) = mesh a) ->
  flying_meshes (f <$> ps) = flying_meshes ps.
Proof.
  intros Hf. induction ps as [|a ps IH]; [done|].
  rewrite fmap_cons, !flying_meshes_cons, IH. unfold flying_mesh.
  destruct (Hf a) as [Hst ->]. by rewrite (inFlight_by_state _ _ Hst).
Qed.

(** *** Every event keeps [game_ok] *)

Lemma game_update_ok dt g :
  game_ok g -> game_ok (game_update dt g).
Proof.
  intros ((hs & Hhs & Hfleet) & Hplanes & Hlen & Hin).
  pose proof (game_update_planes dt g) as Hps.
  rewrite game_update_eq in *. cbn [planes ship world] in *.
  pose proof (Ship_update_fields dt (ship g) (world g)) as (Hm & Hi & Hn & Hd).
  unfold game_ok. cbn [planes ship world]. repeat split.
  - exists hs. split; [congruence|].
    apply (for_each_fleet_ok hs _ dt (planes g) []).
    by apply (fleet_ok_scene _ _ (world g)).
  - rewrite Hps. apply Forall_fmap. eapply Forall_impl; [done|].
    intros a Ha. by apply Aircraft_update_plane_ok.
  - by rewrite Hps, length_fmap.
  - by rewrite Hi.
Qed.

Lemma setKey_ok key v g s :
  Ship_setKey key v (ship g) = Some s -> game_ok g ->
  game_ok (mkGame s (planes g) (world g)).
Proof.
  unfold Ship_setKey. case_bool_decide; [|done]. intros [= <-].
  intros ((hs & Hhs & Hfleet) & Hplanes & Hlen & Hin).
  unfold game_ok. cbn [planes ship world ship_mesh ship_input].
  repeat split; eauto. by rewrite length_insert.
Qed.

Lemma launch_plane_ok owner a sc :
  plane_ok a -> plane_ok (Aircraft_launch owner a sc).1.
Proof.
  intros Hok.
  pose proof (launch_fields owner a sc)
    as (_ & _ & _ & Hst & ? & ? & ? & ? & _ & _ & ? & _).
  apply (plane_ok_frame a); try done; congruence.
Qed.

Lemma launch_first_speeds owner ps sc :
  Forall speed_in_range ps -> Forall speed_in_range (launch_first owner ps sc).1.
Proof.
  intros Hps.
  destruct (launch_first_spec owner ps sc)
    as [[_ ->]|(front & a & rest & -> & _ & _ & ->)]; [done|].
  apply Forall_app in Hps as [? Hrest]. apply Forall_cons in Hrest as [? ?].
  cbn [fst]. apply Forall_app; split; [done|]. apply Forall_cons; split; [|done].
  by apply (speed_in_range_frame a).
Qed.

Lemma game_mouseClicked_ok x y isLeftButton g :
  game_ok g -> game_ok (game_mouseClicked x y isLeftButton g).
Proof.
  intros ((hs & Hhs & Hfleet) & Hplanes & Hlen & Hin).
  unfold game_mouseClicked, Ship_mouseClicked.
  destruct (screenToWorld (x, y)) as [wx wy].
  destruct isLeftButton.
  - unfold game_ok. cbn [planes ship world]. repeat split; try done.
    + exists hs. split; [done|]. destruct Hfleet as (? & Hnd & Hdom & Hall).
      unfold fleet_ok. rewrite flying_meshes_fmap by done.
      repeat split; try done.
      apply Forall_fmap. eapply Forall_impl; [exact Hall|]. intros a Ha. exact Ha.
    + apply Forall_fmap. eapply Forall_impl; [exact Hplanes|]. intros a Ha.
      by apply (plane_ok_frame a).
    + by rewrite length_fmap.
  - pose proof (launch_first_fleet_ok hs (ship g) _ _ Hfleet) as Hfleet'.
    pose proof (launch_first_spec (ship g) (planes g) (world g)) as Hspec.
    destruct (launch_first (ship g) (planes g) (world g)) as [ps sc].
    unfold game_ok. cbn [planes ship world fst snd] in *.
    repeat split; try done; [by exists hs| |].
    + destruct Hspec as [[_ [= -> _]]|(front & a & rest & Hps & _ & _ & [= -> _])];
        [done|].
      rewrite Hps in Hplanes. apply Forall_app in Hplanes as [? Hrest].
      apply Forall_cons in Hrest as [? ?].
      apply Forall_app; split; [done|]. apply Forall_cons; split; [|done].
      by apply launch_plane_ok.
    + destruct Hspec as [[_ [= -> _]]|(front & a & rest & Hps & _ & _ & [= -> _])];
        [done|].
      rewrite Hps in Hlen. by rewrite length_app in *.
Qed.
End GameFacts.

Section RestartFacts.
Context `{Libm} `{Framework}.

(** *** [deinit] and [init] *)

(** What [deinit] makes of one aircraft. *)
Lemma game_deinit_eq g :
  let body := fun plane sc =>
    if Aircraft_inFlight plane then Aircraft_deinit plane sc else (plane, sc) in
  let s := (Ship_deinit (ship g) (world g)).1 in
  let sc := (Ship_deinit (ship g) (world g)).2 in
  game_deinit g = mkGame s (for_each body (planes g) sc).1 (for_each body (planes g) sc).2.
Proof.
  unfold game_deinit. destruct (Ship_deinit (ship g) (world g)) as [s sc].
  simpl. by destruct (for_each _ _ _).
Qed.

Lemma deinit_loop_planes ps sc :
  (for_each (fun plane sc =>
     if Aircraft_inFlight plane then Aircraft_deinit plane sc else (plane, sc))
     ps sc).1
  = (fun a => if Aircraft_inFlight a then set_mesh None a else a) <$> ps.
Proof. apply for_each_fst. intros a sc'. by destruct (Aircraft_inFlight a). Qed.

Lemma deinit_loop_scene ps sc :
  let sc' := (for_each (fun plane sc =>
     if Aircraft_inFlight plane then Aircraft_deinit plane sc else (plane, sc))
     ps sc).2 in
  scene.next sc' = scene.next sc /\
  dom (scene.meshes sc') = dom (scene.meshes sc) ∖ list_to_set (flying_meshes ps).
Proof.
  revert sc. induction ps as [|a ps IH]; intros sc.
  { simpl. split; [done|]. set_solver. }
  cbn [for_each]. rewrite flying_meshes_cons. unfold flying_mesh.
  destruct (Aircraft_inFlight a).
  - unfold Aircraft_deinit.
    destruct (IH (scene.destroyMesh (mesh a) sc)) as [Hn Hd].
    destruct (for_each _ ps _) as [ps' sc2]. cbn [fst snd] in *.
    destruct (destroyMesh_scene (mesh a) sc) as [Hn1 Hd1].
    rewrite Hn, Hd, Hn1, Hd1. split; [done|].
    destruct (mesh a); simpl; set_solver.
  - destruct (IH sc) as [Hn Hd].
    by destruct (for_each _ ps _) as [ps' sc2].
Qed.

Lemma flying_meshes_init ps : flying_meshes (Aircraft_init <$> ps) = [].
Proof. by induction ps. Qed.

Lemma plane_ok_init a : plane_ok (Aircraft_init a).
Proof. by repeat split. Qed.

(** [init] on a game without any mesh. *)
Lemma game_init_ok g0 :
  ship_mesh (ship g0) = None ->
  dom (scene.meshes (world g0)) = ∅ ->
  Forall (fun a => forall h, mesh a = Some h -> h < scene.next (world g0)) (planes g0) ->
  length (planes g0) = 5 ->
  length (ship_input (ship g0)) = Z.to_nat KEY_COUNT ->
  exists g, game_init g0 = Some g /\ game_ok g.
Proof.
  intros Hm Hd Hb Hlen Hin. unfold game_init, Ship_init. rewrite Hm. simpl.
  eexists; split; [done|]. unfold game_ok. cbn [planes ship world ship_mesh ship_input].
  repeat split.
  - exists (scene.next (world g0)). split; [done|].
    unfold fleet_ok. rewrite flying_meshes_init. cbn [scene.next scene.meshes].
    repeat split.
    + lia.
    + apply NoDup_singleton.
    + rewrite dom_insert_L, Hd. set_solver.
    + apply Forall_fmap. eapply Forall_impl; [exact Hb|]. intros a Ha.
      split; [|split]; cbn [scene.next scene.meshes].
      * done.
      * intros h Hh. specialize (Ha h Hh). lia.
      * intros _ h Hh. specialize (Ha h Hh). rewrite dom_insert_L, Hd.
        set_solver by lia.
  - apply Forall_fmap, Forall_forall. intros a _. apply plane_ok_init.
  - by rewrite length_fmap.
  - by rewrite length_fmap.
Qed.

Lemma start_ok g : start = Some g -> game_ok g.
Proof.
  intros Hg. destruct (game_init_ok game_static) as (g' & Hg' & Hok).
  - done.
  - apply dom_empty_L.
  - apply Forall_forall. by intros a [-> _]%elem_of_replicate.
  - done.
  - apply length_replicate.
  - unfold start in Hg. congruence.
Qed.

Lemma restart_ok g :
  game_ok g -> exists g', game_init (game_deinit g) = Some g' /\ game_ok g'.
Proof.
  intros ((hs & Hhs & Hhs_lt & Hnd & Hdom & Hall) & Hplanes & Hlen & Hin).
  rewrite game_deinit_eq. cbn zeta.
  rewrite deinit_loop_planes.
  destruct (deinit_loop_scene (planes g) (Ship_deinit (ship g) (world g)).2)
    as [Hn Hd].
  unfold Ship_deinit in *. cbn [fst snd] in *.
  destruct (destroyMesh_scene (ship_mesh (ship g)) (world g)) as [Hn1 Hd1].
  apply game_init_ok; cbn [planes ship world ship_mesh ship_input].
  - done.
  - rewrite Hd, Hd1, Hhs, Hdom. simpl. set_solver.
  - rewrite Hn, Hn1. apply Forall_fmap. eapply Forall_impl; [exact Hall|].
    intros a (_ & Hlt & _) h. simpl. destruct (Aircraft_inFlight a); [done|]. apply Hlt.
  - by rewrite length_fmap.
  - done.
Qed.

(** *** The invariant of the game *)

Lemma game_init_fields g1 g' :
  game_init g1 = Some g' ->
  planes g' = Aircraft_init <$> planes g1 /\
  ship_position (ship g') = Vector2.zero /\ ship_angle (ship g') = F32.zero /\
  ship_input (ship g') = (fun _ => false) <$> ship_input (ship g1).
Proof.
  unfold game_init, Ship_init. destruct (ship_mesh (ship g1)); [done|].
  simpl. by intros [= <-].
Qed.


Lemma step_ok g e g' :
  step g e = Some g' -> game_ok g -> game_ok g'.
Proof.
  intros Hstep Hok. destruct e; simpl in *.
  - unfold game_keyPressed, Ship_keyPressed in Hstep.
    destruct (Ship_setKey key true (ship g)) as [s|] eqn:Hs; [|done].
    injection Hstep as <-. by eapply setKey_ok.
  - unfold game_keyReleased, Ship_keyReleased in Hstep.
    destruct (Ship_setKey key false (ship g)) as [s|] eqn:Hs; [|done].
    injection Hstep as <-. by eapply setKey_ok.
  - injection Hstep as <-. by apply game_mouseClicked_ok.
  - injection Hstep as <-. by apply game_update_ok.
  - destruct (restart_ok g Hok) as (g'' & Hg'' & Hok''). congruence.
Qed.

Lemma reachable_ok ok g : reachable_by ok g -> game_ok g.
Proof.
  induction 1 as [g Hg|g e g' _ IH He Hstep].
  - by apply start_ok.
  - by eapply step_ok.
Qed.

(** With frames of elapsed time every speed is in its range. *)
Lemma step_speeds g e g' :
  event_ok e = true -> step g e = Some g' -> game_ok g ->
  Forall speed_in_range (planes g) -> Forall speed_in_range (planes g').
Proof.
  intros He Hstep (_ & Hplanes & _) Hsp. destruct e; simpl in *.
  - unfold game_keyPressed in Hstep.
    destruct (Ship_keyPressed key (ship g)); [|done]. by injection Hstep as <-.
  - unfold game_keyReleased in Hstep.
    destruct (Ship_keyReleased key (ship g)); [|done]. by injection Hstep as <-.
  - injection Hstep as <-. unfold game_mouseClicked, Ship_mouseClicked.
    destruct (screenToWorld (x, y)) as [wx wy]. destruct isLeftButton.
    + cbn [planes]. apply Forall_fmap. eapply Forall_impl; [exact Hsp|].
      by intros a Ha.
    + pose proof (launch_first_speeds (ship g) (planes g) (world g) Hsp).
      by destruct (launch_first _ _ _).
  - injection Hstep as <-. rewrite game_update_planes.
    apply Forall_fmap, Forall_lookup. intros i a Ha.
    rewrite Forall_lookup in Hplanes, Hsp.
    apply Aircraft_update_speed; eauto.
  - apply game_init_fields in Hstep as (-> & _).
    apply Forall_fmap, Forall_forall. by intros a _.
Qed.

Lemma reachable_speeds g :
  reachable_in_time g -> Forall speed_in_range (planes g).
Proof.
  induction 1 as [g Hg|g e g' Hreach IH He Hstep].
  - apply game_init_fields in Hg as (-> & _).
    apply Forall_fmap, Forall_forall. by intros a _.
  - eapply step_speeds; [done..| |done]. by eapply reachable_ok.
Qed.

Lemma run_reachable ok es g g' :
  reachable_by ok g -> forallb ok es = true -> run es g = Some g' ->
  reachable_by ok g'.
Proof.
  revert g. induction es as [|e es IH]; intros g Hg Hes Hrun; simpl in *.
  - by injection Hrun as <-.
  - apply andb_true_iff in Hes as [He Hes].
    destruct (step g e) as [g1|] eqn:Hstep; [|done]. simpl in Hrun.
    apply (IH g1); [|done..]. by eapply reachable_step.
Qed.
End RestartFacts.

(** ** The claims *)

Section Claims.
Context `{Libm} `{Framework}.

Lemma reachable_plane_ok g i a :
  reachable g -> planes g !! i = Some a -> plane_ok a.
Proof.
  intros Hg Ha. apply reachable_ok in Hg as (_ & Hplanes & _).
  rewrite Forall_lookup in Hplanes. by eapply Hplanes.
Qed.

(** In every reachable game an aircraft in flight has its visual in the
    scene, and an aircraft out of flight has none. *)
Lemma reachable_visuals g i a :
  reachable g -> planes g !! i = Some a ->
  (Aircraft_inFlight a = true -> scene.live (mesh a) (world g)) /\
  (Aircraft_inFlight a = false -> ~ scene.live (mesh a) (world g)).
Proof.
  intros Hg Ha.
  apply reachable_ok in Hg as ((hs & _ & _ & _ & Hdom & Hall) & _).
  rewrite Forall_lookup in Hall. destruct (Hall i a Ha) as (Hfl & _ & Hout).
  split.
  - intros Hf. destruct (Hfl Hf) as [h Hh]. exists h. split; [done|].
    rewrite Hdom, list_to_set_cons, elem_of_union, elem_of_list_to_set.
    right. apply list_elem_of_omap. exists a. split.
    + by eapply list_elem_of_lookup_2.
    + unfold flying_mesh. by rewrite Hf.
  - intros Hf (h & Hh & Hin). by apply (Hout Hf h Hh).
Qed.

(** C10: [setTarget] assigns the target position and no other member. *)
Theorem C10_setTarget_frame (p : Vector2.t) (a : Aircraft) :
  let a' := Aircraft_setTarget p a in
  targetPosition a' = p /\
  state a' = state a /\ position a' = position a /\ angle a' = angle a /\
  linearSpeed a' = linearSpeed a /\ acceleration a' = acceleration a /\
  takeoffTime a' = takeoffTime a /\ flightTime a' = flightTime a /\
  landingTime a' = landingTime a /\ hoverRaduis a' = hoverRaduis a /\
  hoverAngle a' = hoverAngle a /\ mesh a' = mesh a.
Proof. by repeat split. Qed.

(** C9: after [Ship::update] the linear speed of the ship is +0.5 with the
    forward key held, else -0.5 with the backward key held, else 0, whatever
    it was before and whatever [dt] is. *)
Theorem C9_ship_speed_from_keys (dt : F32.float) (s : Ship) (sc : scene.t) :
  ship_linearSpeed (Ship_update dt s sc).1 =
    if Ship_key s KEY_FORWARD then F32.dec 5 1
    else if Ship_key s KEY_BACKWARD then (- F32.dec 5 1)%f32
    else F32.zero.
Proof. done. Qed.

(** C7, as amended: with the forward and the backward key released,
    [Ship::update] with a finite [dt] leaves the heading of the ship as it
    is, whatever the left and right keys are; a heading of -0 comes out as
    +0, the same number. *)
Theorem C7_no_turn_at_rest (dt : F32.float) (s : Ship) (sc : scene.t) :
  F32.is_finite dt = true ->
  Ship_key s KEY_FORWARD = false -> Ship_key s KEY_BACKWARD = false ->
  ship_angle (Ship_update dt s sc).1 = ship_angle s \/
  (ship_angle s = S754_zero true /\
   ship_angle (Ship_update dt s sc).1 = S754_zero false).
Proof.
  intros Hdt Hf Hb. unfold Ship_update. rewrite Hf, Hb.
  cbn [ship_angle fst].
  replace (F32.zero !=? F32.zero)%f32 with false by done.
  rewrite !andb_false_r.
  destruct dt as [sd|sd| |sd md ed]; try done;
    destruct (ship_angle s) as [[]|sa| |sa ma ea]; destruct sd; auto.
Qed.

(** C6: an update in [FLY] goes to [HOVER] exactly when the distance to the
    target is at most the hover radius, and the hover angle is then the
    heading plus pi; an update in [HOVER] stays in [HOVER] exactly when the
    distance does not exceed the radius plus 1e-6 and the flight time is
    below 10, and it then sets the heading to the hover angle plus pi/2,
    advances the hover angle by 2.5 dt and puts the aircraft on the circle
    around the target at the advanced angle; [HOVER] gives way to [FLY]
    exactly when the distance to the target exceeds the hover radius plus
    1e-6. *)
Theorem C6_hover (owner : Ship) (dt : F32.float) (a : Aircraft) (sc : scene.t) :
  let a' := (Aircraft_update owner dt a sc).1 in
  (state a = FLY -> state a' = HOVER ->
   hoverAngle a' = (angle a + params.PI)%f32) /\
  (state a = HOVER -> state a' = HOVER ->
   angle a' = (hoverAngle a + params.PI / F32.of_Z 2)%f32 /\
   hoverAngle a' = (hoverAngle a + F32.dec 25 1 * dt)%f32 /\
   position a' =
     Vector2.mk
       (Vector2.x (targetPosition a) + std_cos (hoverAngle a') * hoverRaduis a)%f32
       (Vector2.y (targetPosition a) + std_sin (hoverAngle a') * hoverRaduis a)%f32) /\
  (state a = HOVER ->
   state a' = FLY <->
   (distance (targetPosition a) (position a)
    >? hoverRaduis a + F32.dec 1 6)%f32 = true) /\
  (state a = FLY ->
   state a' = HOVER <->
   (distance (targetPosition a) (position a) <=? hoverRaduis a)%f32 = true) /\
  (state a = HOVER ->
   state a' = HOVER <->
   (distance (targetPosition a) (position a)
    >? hoverRaduis a + F32.dec 1 6)%f32 = false /\
   (flightTime a >=? F32.of_Z 10)%f32 = false).
Proof.
  cbn zeta. unfold Aircraft_update, distance.
  split; [|split; [|split; [|split]]]; intros Hst; rewrite Hst.
  - rewrite simulateFlight_state.
    destruct (simulateFlight_pose dt (Aircraft_fly dt a) sc) as (_ & _ & -> & _).
    unfold Aircraft_fly. destruct (_ <=? _)%f32; members; [done|congruence].
  - rewrite simulateFlight_state.
    destruct (simulateFlight_pose dt (Aircraft_hover dt a) sc) as (-> & -> & -> & _).
    unfold Aircraft_hover, errorTolerance.
    destruct (_ >? _)%f32; members; [congruence|].
    by destruct (_ >=? _)%f32.
  - rewrite simulateFlight_state. unfold Aircraft_hover, errorTolerance.
    destruct (_ >? _)%f32; members; [done|].
    destruct (_ >=? _)%f32; members; split; congruence.
  - rewrite simulateFlight_state. unfold Aircraft_fly.
    destruct (_ <=? _)%f32; members; [done|]. split; congruence.
  - rewrite simulateFlight_state.
    unfold Aircraft_hover, errorTolerance, params.aircraft.FLIGHT_TIME.
    destruct (_ >? _)%f32; members.
    + split; [congruence|]. by intros [? _].
    + destruct (_ >=? _)%f32; members; [|done].
      split; [congruence|]. by intros [_ ?].
Qed.

Lemma launch_first_states owner ps sc :
  state <$> (launch_first owner ps sc).1 = first_idle_takes_off (state <$> ps).
Proof.
  induction ps as [|a ps IH]; [done|].
  cbn [launch_first]. unfold Aircraft_readyToFly.
  rewrite fmap_cons. cbn [first_idle_takes_off].
  destruct (launch_first owner ps sc) as [ps' sc'].
  destruct (state a) eqn:Hst; simpl in *; [done|by rewrite Hst, <- IH..].
Qed.

Lemma right_click_states x y g :
  state <$> planes (game_mouseClicked x y false g)
  = first_idle_takes_off (state <$> planes g).
Proof.
  unfold game_mouseClicked. destruct (screenToWorld (x, y)) as [wx wy].
  unfold Ship_mouseClicked.
  pose proof (launch_first_states (ship g) (planes g) (world g)) as Hl.
  by destruct (launch_first (ship g) (planes g) (world g)).
Qed.

(** C8: a click with another button than the left one launches the first
    aircraft, in the order of the array, that is ready to fly, and leaves
    every other aircraft as it is; with none ready nothing changes.  From
    five idle aircraft, two such clicks leave the first two in [TAKEOFF] and
    the other three idle. *)
Theorem C8_right_click_launches_first :
  (forall (p : Vector2.t) (s : Ship) (ps : list Aircraft) (sc : scene.t),
      let r := Ship_mouseClicked p false s ps sc in
      (Forall (fun a => Aircraft_readyToFly a = false) ps /\ r = (ps, sc)) \/
      (exists front a rest,
          ps = front ++ a :: rest /\
          Forall (fun a => Aircraft_readyToFly a = false) front /\
          Aircraft_readyToFly a = true /\
          state (Aircraft_launch s a sc).1 = TAKEOFF /\
          r = (front ++ (Aircraft_launch s a sc).1 :: rest,
               (Aircraft_launch s a sc).2))) /\
  (forall (x1 y1 x2 y2 : F32.float) (g : Game),
      state <$> planes g = [IDLE; IDLE; IDLE; IDLE; IDLE] ->
      state <$> planes (game_mouseClicked x2 y2 false
                          (game_mouseClicked x1 y1 false g))
      = [TAKEOFF; TAKEOFF; IDLE; IDLE; IDLE]).
Proof.
  split.
  - intros p s ps sc. cbn zeta. unfold Ship_mouseClicked.
    destruct (launch_first_spec s ps sc)
      as [?|(front & a & rest & ? & ? & ? & ?)]; [by left|right].
    by exists front, a, rest.
  - intros x1 y1 x2 y2 g Hg. by rewrite !right_click_states, Hg.
Qed.

(** C5: in a reachable game, [launch] on an idle aircraft creates its
    visual, copies the position and the heading of the ship, leaves the
    flight timer at 0 and the take-off threshold at 2, and puts the aircraft
    in [TAKEOFF]. *)
Theorem C5_launch (g : Game) (i : nat) (a : Aircraft) :
  reachable g -> planes g !! i = Some a -> state a = IDLE ->
  let a' := (Aircraft_launch (ship g) a (world g)).1 in
  let sc' := (Aircraft_launch (ship g) a (world g)).2 in
  scene.live (mesh a') sc' /\ ~ scene.live (mesh a') (world g) /\
  position a' = ship_position (ship g) /\ angle a' = ship_angle (ship g) /\
  flightTime a' = F32.zero /\ takeoffTime a' = F32.of_Z 2 /\
  state a' = TAKEOFF.
Proof.
  intros Hg Ha Hst. cbn zeta.
  pose proof (reachable_plane_ok g i a Hg Ha) as (_ & Htk & _ & Hidle).
  destruct (Hidle Hst) as [_ Hft].
  apply reachable_ok in Hg as ((hs & _ & Hfleet) & _).
  pose proof (launch_fields (ship g) a (world g))
    as (Hm & Hp & Hang & Hst' & _ & _ & Htk' & Hft' & _ & _ & _ & _ & Hn & Hd).
  repeat split; try congruence.
  - exists (scene.next (world g)). split; [done|]. rewrite Hd. set_solver.
  - intros (h & Hh & Hin). rewrite Hm in Hh. injection Hh as <-.
    apply (fleet_ok_bound _ _ _ _ Hfleet) in Hin. lia.
Qed.

Lemma Aircraft_update_refuel_speed owner dt a sc :
  state (Aircraft_update owner dt a sc).1 = REFUEL ->
  linearSpeed (Aircraft_update owner dt a sc).1 = linearSpeed a.
Proof.
  unfold Aircraft_update.
  assert (forall b sc1, state b = REFUEL ->
            (Aircraft_simulateFlight dt b sc1).1 = b) as Hsim.
  { intros b sc1 Hb. unfold Aircraft_simulateFlight, Aircraft_inFlight.
    rewrite Hb. by rewrite andb_false_r. }
  destruct (state a) eqn:Hst.
  - rewrite simulateFlight_state. congruence.
  - rewrite simulateFlight_state. unfold Aircraft_takeoff.
    destruct (_ >=? _)%f32; members; congruence.
  - rewrite simulateFlight_state. unfold Aircraft_fly.
    destruct (_ <=? _)%f32; members; congruence.
  - rewrite simulateFlight_state. unfold Aircraft_hover.
    destruct (_ >? _)%f32; members; [congruence|].
    destruct (_ >=? _)%f32; members; congruence.
  - unfold Aircraft_land. destruct (_ <=? _)%f32.
    + intros _. by rewrite Hsim.
    + rewrite simulateFlight_state. members. congruence.
  - rewrite simulateFlight_state. intros Hr. rewrite Hsim by done.
    unfold Aircraft_refuel in *. members. by destruct (_ >? _)%f32.
Qed.

(** C2, as amended: in every game reached by frames of elapsed time, the
    speed of an aircraft lies in [0, 2.0], in flight and while it refuels,
    and is exactly 0 when the aircraft is idle, hence right after it has
    become idle; a frame that leaves the aircraft in [REFUEL], the frame of
    the landing included, leaves its speed as it was. *)
Theorem C2_speed_range (g : Game) (i : nat) (a : Aircraft) :
  reachable_in_time g -> planes g !! i = Some a ->
  speed_in_range a /\ (state a = IDLE -> linearSpeed a = F32.zero) /\
  (forall dt,
      exists a',
        planes (game_update dt g) !! i = Some a' /\
        (state a' = REFUEL -> linearSpeed a' = linearSpeed a)).
Proof.
  intros Hg Ha. split; [|split].
  - apply reachable_speeds in Hg. rewrite Forall_lookup in Hg. by eapply Hg.
  - apply reachable_ok in Hg as (_ & Hplanes & _).
    rewrite Forall_lookup in Hplanes.
    destruct (Hplanes i a Ha) as (_ & _ & _ & Hidle).
    intros Hst. by destruct (Hidle Hst).
  - intros dt. eexists. rewrite game_update_planes, list_lookup_fmap, Ha.
    split; [done|]. apply Aircraft_update_refuel_speed.
Qed.

Lemma state_after_in_order owner dt a :
  in_order_or_back (state a) (state_after owner dt a) = true.
Proof.
  unfold state_after. destruct (state a); try done.
  - by destruct (_ >=? _)%f32.
  - by destruct (_ <=? _)%f32.
  - destruct (_ >? _)%f32; [done|]. by destruct (_ >=? _)%f32.
  - by destruct (_ <=? _)%f32.
  - by destruct (_ >? _)%f32.
Qed.

Lemma frame_state g dt i a :
  reachable g -> planes g !! i = Some a ->
  exists a',
    planes (game_update dt g) !! i = Some a' /\
    state a' = state_after (ship (game_update dt g)) dt a.
Proof.
  intros Hg Ha.
  pose proof (reachable_plane_ok g i a Hg Ha) as (_ & Htk & Hr & _).
  eexists. split.
  - rewrite game_update_planes, list_lookup_fmap, Ha. done.
  - by apply Aircraft_update_state.
Qed.

Lemma adjacent_cons R s s' l :
  adjacent R (s :: s' :: l) = R s s' && adjacent R (s' :: l).
Proof. done. Qed.

Lemma states_along_in_order dts g i a :
  reachable g -> planes g !! i = Some a ->
  length (states_along i dts g) = length dts /\
  follows_sequence_or_falls_back (state a :: states_along i dts g) = true.
Proof.
  revert g a. induction dts as [|dt dts IH]; intros g a Hg Ha; [done|].
  destruct (frame_state g dt i a Hg Ha) as (a' & Ha' & Hst).
  assert (reachable (game_update dt g)) as Hg'
    by (by apply (reachable_step _ g (Update dt))).
  destruct (IH _ _ Hg' Ha') as [Hlen Hseq].
  cbn [states_along]. rewrite Ha'. cbn [length]. split; [by rewrite Hlen|].
  unfold follows_sequence_or_falls_back in *.
  by rewrite adjacent_cons, Hseq, Hst, state_after_in_order.
Qed.

(** X23: in a reachable game a frame leaves the state of an aircraft by
    the table of [state_after], read on the values the aircraft has when
    the frame starts and on the ship as [game::update] has moved it in this
    frame: the state stays, or moves on by one in the order IDLE (left by
    [launch] only), TAKEOFF, FLY, HOVER, LAND, REFUEL, IDLE, or goes back
    from [HOVER] to [FLY].  So over any frames no state is skipped, and the
    only step against the order is the one from [HOVER] to [FLY]. *)
Theorem X23_frame_transitions (g : Game) (i : nat) (a : Aircraft) :
  reachable g -> planes g !! i = Some a ->
  (forall dt,
      exists a',
        planes (game_update dt g) !! i = Some a' /\
        state a' = state_after (ship (game_update dt g)) dt a) /\
  (forall dts,
      length (states_along i dts g) = length dts /\
      follows_sequence_or_falls_back (state a :: states_along i dts g) = true).
Proof.
  intros Hg Ha. split.
  - intros dt. by apply frame_state.
  - intros dts. by apply states_along_in_order.
Qed.





End Claims.

(** ** The claims on concrete runs *)

Lemma reachable_run `{Libm} `{Framework} ok es g :
  forallb ok es = true -> start ≫= run es = Some g -> reachable_by ok g.
Proof.
  intros Hes Hrun. destruct start as [g0|] eqn:Hstart; [|done].
  eapply run_reachable; [|done..]. by apply reachable_start.
Qed.

Section OnReference.
#[local] Existing Instance ref_libm.
#[local] Existing Instance ref_framework.

Lemma airborne_reachable : reachable Runs.airborne_game.
Proof. apply (reachable_run _ Runs.airborne); vm_compute; reflexivity. Qed.

Lemma airborne_in_time : reachable_in_time Runs.airborne_game.
Proof. apply (reachable_run _ Runs.airborne); vm_compute; reflexivity. Qed.

Lemma initial_reachable : reachable Runs.initial_game.
Proof. apply reachable_start. vm_compute. reflexivity. Qed.

(** C2, as stated, fails: after a landing the aircraft refuels, out of
    flight, at the speed it landed with. *)
Lemma C2_refuelling_at_full_speed :
  forallb event_ok Runs.flight = true /\
  (g ← Runs.refuelling; a ← planes g !! 0;
   Some (state a, Aircraft_inFlight a, linearSpeed a))
  = Some (REFUEL, false, F32.of_Z 2).
Proof. split; vm_compute; reflexivity. Qed.

Lemma refuelling_in_time : reachable_in_time Runs.refuelling_game.
Proof. apply (reachable_run _ Runs.flight); vm_compute; reflexivity. Qed.

Lemma refuelled_in_time : reachable_in_time Runs.refuelled_game.
Proof.
  apply (reachable_run _ (Runs.flight ++ [Runs.frame 4])); vm_compute;
    reflexivity.
Qed.

Lemma C2_speed_range_witness :
  (reachable_in_time Runs.refuelling_game /\
   planes Runs.refuelling_game !! 0 = Some Runs.refuelling_plane /\
   state Runs.refuelling_plane = REFUEL /\
   speed_in_range Runs.refuelling_plane /\
   planes (game_update (F32.of_Z 1) Runs.refuelling_game) !! 0
   = Some Runs.still_refuelling /\
   state Runs.still_refuelling = REFUEL /\
   linearSpeed Runs.still_refuelling = linearSpeed Runs.refuelling_plane) /\
  reachable_in_time Runs.refuelled_game /\
  planes Runs.refuelled_game !! 0 = Some Runs.refuelled_plane /\
  state Runs.refuelled_plane = IDLE /\
  linearSpeed Runs.refuelled_plane = F32.zero.
Proof.
  assert (planes Runs.refuelling_game !! 0 = Some Runs.refuelling_plane) as Hp
    by (vm_compute; reflexivity).
  assert (state Runs.refuelling_plane = REFUEL) as Hr
    by (vm_compute; reflexivity).
  assert (planes (game_update (F32.of_Z 1) Runs.refuelling_game) !! 0
          = Some Runs.still_refuelling) as Hq by (vm_compute; reflexivity).
  assert (state Runs.still_refuelling = REFUEL) as Hr'
    by (vm_compute; reflexivity).
  assert (planes Runs.refuelled_game !! 0 = Some Runs.refuelled_plane) as Hp'
    by (vm_compute; reflexivity).
  assert (state Runs.refuelled_plane = IDLE) as Hi by (vm_compute; reflexivity).
  pose proof (C2_speed_range Runs.refuelling_game 0 Runs.refuelling_plane
                refuelling_in_time Hp) as (Hrange & _ & Hkeep).
  pose proof (C2_speed_range Runs.refuelled_game 0 Runs.refuelled_plane
                refuelled_in_time Hp') as (_ & Hidle & _).
  split.
  - split; [exact refuelling_in_time|]. split; [exact Hp|].
    split; [exact Hr|]. split; [exact Hrange|]. split; [exact Hq|].
    split; [exact Hr'|].
    destruct (Hkeep (F32.of_Z 1)) as (a' & Ha' & Hsame).
    rewrite Hq in Ha'. apply (inj Some) in Ha'. subst a'. exact (Hsame Hr').
  - split; [exact refuelled_in_time|]. split; [exact Hp'|].
    split; [exact Hi|]. exact (Hidle Hi).
Defined.

(** C3 at the failing input: after a whole flight the first aircraft is
    idle, its mesh is destroyed, and its pointer is still the one of that
    mesh. *)
Lemma C3_idle_with_dangling_mesh :
  forallb event_ok (Runs.flight ++ [Runs.frame 4]) = true /\
  (g ← Runs.refuelled; a ← planes g !! 0;
   Some (state a, mesh a, scene.meshes (world g) !! 1))
  = Some (IDLE, Some 1, None).
Proof. split; vm_compute; reflexivity. Qed.

(** C1 at the failing input: the ship has sailed 32 units, the target lies
    4 units from the launch point and is never moved, no frame is longer
    than 2; the aircraft takes off, flies, hovers, and after three frames on
    its circle the distance it computes to the target exceeds the radius
    plus 1e-6, the tolerance of [Aircraft::hover], so that it falls back
    from [HOVER] to [FLY]: a state out of the order of the claim. *)
Lemma C1_hover_falls_back_to_fly :
  forallb (fun e => event_ok e && Runs.at_most_2 e) Runs.far_out = true /\
  forallb (fun dt => elapsed dt && (dt <=? F32.of_Z 2)%f32) Runs.hover_frames
  = true /\
  (g ← Runs.launched_far_out; a ← planes g !! 0;
   Some (state a, position a, targetPosition a,
         (distance (targetPosition a) (position a) >? hoverRaduis a)%f32))
  = Some (TAKEOFF, Vector2.mk (F32.of_Z 32) F32.zero,
          Vector2.mk (F32.of_Z 36) F32.zero, true) /\
  (g ← Runs.launched_far_out; Some (states_along 0 Runs.hover_frames g))
  = Some [TAKEOFF; TAKEOFF; FLY; HOVER; HOVER; HOVER; HOVER; FLY] /\
  follows_sequence
    [IDLE; TAKEOFF; TAKEOFF; TAKEOFF; FLY; HOVER; HOVER; HOVER; HOVER; FLY]
  = false.
Proof. repeat split; vm_compute; reflexivity. Qed.

Lemma X23_frame_transitions_witness :
  reachable Runs.airborne_game /\
  planes Runs.airborne_game !! 0 = Some Runs.airborne_plane /\
  (forall dt,
      exists a',
        planes (game_update dt Runs.airborne_game) !! 0 = Some a' /\
        state a' = state_after (ship (game_update dt Runs.airborne_game)) dt
                     Runs.airborne_plane) /\
  (forall dts,
      length (states_along 0 dts Runs.airborne_game) = length dts /\
      follows_sequence_or_falls_back
        (state Runs.airborne_plane :: states_along 0 dts Runs.airborne_game)
      = true).
Proof.
  assert (planes Runs.airborne_game !! 0 = Some Runs.airborne_plane) as Hp
    by (vm_compute; reflexivity).
  split; [exact airborne_reachable|]. split; [exact Hp|].
  exact (X23_frame_transitions Runs.airborne_game 0 Runs.airborne_plane
           airborne_reachable Hp).
Defined.



Lemma C5_launch_witness :
  reachable Runs.initial_game /\
  planes Runs.initial_game !! 0 = Some Runs.idle_plane /\
  state Runs.idle_plane = IDLE /\
  let a' := (Aircraft_launch (ship Runs.initial_game) Runs.idle_plane
               (world Runs.initial_game)).1 in
  let sc' := (Aircraft_launch (ship Runs.initial_game) Runs.idle_plane
                (world Runs.initial_game)).2 in
  scene.live (mesh a') sc' /\ ~ scene.live (mesh a') (world Runs.initial_game) /\
  position a' = ship_position (ship Runs.initial_game) /\
  angle a' = ship_angle (ship Runs.initial_game) /\
  flightTime a' = F32.zero /\ takeoffTime a' = F32.of_Z 2 /\
  state a' = TAKEOFF.
Proof.
  assert (planes Runs.initial_game !! 0 = Some Runs.idle_plane) as Hp
    by (vm_compute; reflexivity).
  assert (state Runs.idle_plane = IDLE) as Hi by (vm_compute; reflexivity).
  split; [exact initial_reachable|]. split; [exact Hp|]. split; [exact Hi|].
  exact (C5_launch Runs.initial_game 0 Runs.idle_plane initial_reachable Hp Hi).
Defined.

Lemma C6_hover_witness :
  (state MoreRuns.arrived = FLY /\
   (distance (targetPosition MoreRuns.arrived) (position MoreRuns.arrived)
    <=? hoverRaduis MoreRuns.arrived)%f32 = true /\
   state (Aircraft_update MoreRuns.at_anchor Runs.half MoreRuns.arrived
            scene.empty).1 = HOVER /\
   hoverAngle (Aircraft_update MoreRuns.at_anchor Runs.half MoreRuns.arrived
                 scene.empty).1
   = (angle MoreRuns.arrived + params.PI)%f32) /\
  state Runs.circling = HOVER /\
  state (Aircraft_update Runs.turning_at_rest Runs.half Runs.circling scene.empty).1
  = HOVER /\
  hoverAngle
    (Aircraft_update Runs.turning_at_rest Runs.half Runs.circling scene.empty).1
  = (hoverAngle Runs.circling + F32.dec 25 1 * Runs.half)%f32.
Proof.
  assert (state MoreRuns.arrived = FLY) as Hf by reflexivity.
  assert ((distance (targetPosition MoreRuns.arrived) (position MoreRuns.arrived)
           <=? hoverRaduis MoreRuns.arrived)%f32 = true) as Hnear
    by (vm_compute; reflexivity).
  pose proof (C6_hover MoreRuns.at_anchor Runs.half MoreRuns.arrived scene.empty)
    as (Hangle & _ & _ & Hto & _).
  pose proof (proj2 (Hto Hf) Hnear) as Hh.
  split; [split; [exact Hf|split; [exact Hnear|split; [exact Hh|]]]|].
  { exact (Hangle Hf Hh). }
  assert (state Runs.circling = HOVER) as Hs by reflexivity.
  assert (state (Aircraft_update Runs.turning_at_rest Runs.half Runs.circling
                   scene.empty).1 = HOVER) as Hs' by (vm_compute; reflexivity).
  split; [exact Hs|]. split; [exact Hs'|].
  exact (proj1 (proj2 (proj1 (proj2
           (C6_hover Runs.turning_at_rest Runs.half Runs.circling scene.empty))
           Hs Hs'))).
Defined.

(** C7, as stated, fails: with no key but the left one held, a frame of
    infinite [dt] turns the heading 0 into 0 + 0 * infinity, which is not a
    number. *)
Lemma C7_infinite_frame_spoils_heading :
  Ship_key Runs.turning_at_rest KEY_FORWARD = false /\
  Ship_key Runs.turning_at_rest KEY_BACKWARD = false /\
  ship_angle Runs.turning_at_rest = F32.zero /\
  ship_angle
    (Ship_update (S754_infinity false) Runs.turning_at_rest scene.empty).1
  = S754_nan.
Proof. repeat split; reflexivity. Qed.

Lemma C7_no_turn_at_rest_witness :
  F32.is_finite (F32.of_Z 1) = true /\
  Ship_key Runs.turning_at_rest KEY_FORWARD = false /\
  Ship_key Runs.turning_at_rest KEY_BACKWARD = false /\
  Ship_key Runs.turning_at_rest KEY_LEFT = true /\
  (ship_angle (Ship_update (F32.of_Z 1) Runs.turning_at_rest scene.empty).1
   = ship_angle Runs.turning_at_rest \/
   (ship_angle Runs.turning_at_rest = S754_zero true /\
    ship_angle (Ship_update (F32.of_Z 1) Runs.turning_at_rest scene.empty).1
    = S754_zero false)).
Proof.
  split; [reflexivity|]. split; [reflexivity|]. split; [reflexivity|].
  split; [reflexivity|].
  apply (C7_no_turn_at_rest (F32.of_Z 1) Runs.turning_at_rest scene.empty);
    reflexivity.
Defined.

Lemma C8_right_click_witness :
  state <$> planes Runs.initial_game = [IDLE; IDLE; IDLE; IDLE; IDLE] /\
  state <$> planes (game_mouseClicked F32.zero F32.zero false
                      (game_mouseClicked F32.zero F32.zero false
                         Runs.initial_game))
  = [TAKEOFF; TAKEOFF; IDLE; IDLE; IDLE].
Proof.
  assert (state <$> planes Runs.initial_game = [IDLE; IDLE; IDLE; IDLE; IDLE])
    as Hi by (vm_compute; reflexivity).
  split; [exact Hi|].
  exact (proj2 C8_right_click_launches_first F32.zero F32.zero F32.zero F32.zero
           Runs.initial_game Hi).
Defined.
End OnReference.

(** ** Further properties of the code *)

(** *** Vector2 *)

Lemma F32_add_comm (a b : F32.float) : (a + b)%f32 = (b + a)%f32.
Proof.
  destruct a as [sa|sa| |sa ma ea], b as [sb|sb| |sb mb eb]; try done.
  - by destruct sa, sb.
  - by destruct sa, sb.
  - unfold F32.add, SFadd. by rewrite (Z.min_comm eb ea), Z.add_comm.
Qed.

(** X1: the sum of two vectors does not depend on their order. *)
Theorem X1_Vector2_add_comm (p q : Vector2.t) :
  Vector2.add p q = Vector2.add q p.
Proof.
  unfold Vector2.add.
  by rewrite (F32_add_comm (Vector2.x p)), (F32_add_comm (Vector2.y p)).
Qed.

Lemma sqrt_not_below_zero (a : F32.float) : (F32.sqrt a <? F32.zero)%f32 = false.
Proof.
  destruct a as [s|[]| |[] m e]; try done.
  unfold F32.sqrt, SFsqrt.
  destruct (SFsqrt_core_binary _ _ _ _) as [[mz ez] lz].
  pose proof (binary_round_aux_sign false mz ez lz) as Hs.
  by destruct (binary_round_aux _ _ _ _ _ _) as [?|?| |? ? ?]; subst.
Qed.

Lemma F32_sub_diag (a : F32.float) :
  F32.is_finite a = true -> (a - a)%f32 = F32.zero.
Proof.
  destruct a as [[]|s| |s m e]; try done. intros _.
  unfold F32.sub, SFsub. rewrite Z.min_id, Z.sub_diag. done.
Qed.

Lemma distance_diag (p : Vector2.t) :
  finite_point p = true -> distance p p = F32.zero.
Proof.
  destruct p as [x y]. unfold finite_point. cbn [Vector2.x Vector2.y].
  intros [Hx Hy]%andb_true_iff.
  unfold distance, Vector2.sub, Vector2.length. cbn [Vector2.x Vector2.y].
  by rewrite (F32_sub_diag x Hx), (F32_sub_diag y Hy).
Qed.

(** X2: the length of a vector is never below zero, whatever its
    coordinates. *)
Theorem X2_length_not_below_zero (v : Vector2.t) :
  (Vector2.length v <? F32.zero)%f32 = false.
Proof. apply sqrt_not_below_zero. Qed.

Section MoreAircraft.
Context `{Libm}.

(** X3: an aircraft in [FLY] that is at its target, a point with finite
    coordinates, and whose hover radius is not below zero, goes to [HOVER]
    in the next update, which leaves it where it is and sets the hover angle
    to the heading plus pi. *)
Theorem X3_arrival (owner : Ship) (dt : F32.float) (a : Aircraft) (sc : scene.t) :
  state a = FLY -> position a = targetPosition a ->
  finite_point (position a) = true ->
  (F32.zero <=? hoverRaduis a)%f32 = true ->
  let a' := (Aircraft_update owner dt a sc).1 in
  state a' = HOVER /\ position a' = position a /\ angle a' = angle a /\
  hoverAngle a' = (angle a + params.PI)%f32.
Proof.
  intros Hst Hpos Hfin Hr. cbn zeta. unfold Aircraft_update. rewrite Hst.
  rewrite simulateFlight_state.
  destruct (simulateFlight_pose dt (Aircraft_fly dt a) sc) as (-> & -> & -> & _).
  unfold Aircraft_fly. rewrite <- Hpos.
  fold (distance (position a) (position a)). rewrite (distance_diag _ Hfin), Hr.
  by members.
Qed.

(** X4: an update leaves an aircraft that is not in flight where it is, with
    its heading, target, hover angle and mesh pointer, leaves the scene as it
    is, and does not put the aircraft in flight; an idle aircraft it leaves
    unchanged altogether. *)
Theorem X4_out_of_flight_untouched (owner : Ship) (dt : F32.float)
  (a : Aircraft) (sc : scene.t) :
  Aircraft_inFlight a = false ->
  let a' := (Aircraft_update owner dt a sc).1 in
  (Aircraft_update owner dt a sc).2 = sc /\
  position a' = position a /\ angle a' = angle a /\
  targetPosition a' = targetPosition a /\ hoverAngle a' = hoverAngle a /\
  mesh a' = mesh a /\ Aircraft_inFlight a' = false /\
  (state a = IDLE -> a' = a).
Proof.
  intros Hfl. cbn zeta. unfold Aircraft_update.
  apply inFlight_false in Hfl as [Hst|Hst]; rewrite Hst.
  - assert (Aircraft_inFlight a = false) as Hf by (apply inFlight_false; by left).
    unfold Aircraft_simulateFlight. rewrite Hf. by cbn.
  - assert (Aircraft_inFlight (Aircraft_refuel dt a) = false) as Hf.
    { apply inFlight_false. unfold Aircraft_refuel. members.
      destruct (_ >? _)%f32; members; auto. }
    unfold Aircraft_simulateFlight. rewrite Hf. cbn [negb fst snd].
    split; [done|].
    assert (position (Aircraft_refuel dt a) = position a /\
            angle (Aircraft_refuel dt a) = angle a /\
            targetPosition (Aircraft_refuel dt a) = targetPosition a /\
            hoverAngle (Aircraft_refuel dt a) = hoverAngle a /\
            mesh (Aircraft_refuel dt a) = mesh a) as (-> & -> & -> & -> & ->).
    { unfold Aircraft_refuel. members. by destruct (_ >? _)%f32. }
    do 5 (split; [done|]). split; [done|]. intros; congruence.
Qed.

(** X5: after an update that leaves an aircraft in flight, its speed is at
    most 2.0, whatever the speed before and whatever [dt]. *)
Theorem X5_speed_capped (owner : Ship) (dt : F32.float) (a : Aircraft)
  (sc : scene.t) :
  Aircraft_inFlight (Aircraft_update owner dt a sc).1 = true ->
  (linearSpeed (Aircraft_update owner dt a sc).1 <=? F32.of_Z 2)%f32 = true.
Proof.
  unfold Aircraft_update.
  assert (forall b s, Aircraft_inFlight (Aircraft_simulateFlight dt b s).1 = true ->
            (linearSpeed (Aircraft_simulateFlight dt b s).1 <=? F32.of_Z 2)%f32 = true)
    as Hsim.
  { intros b s. rewrite simulateFlight_inFlight. unfold Aircraft_simulateFlight.
    intros ->. cbn [negb fst].
    destruct (linearSpeed b + _ <=? _)%f32 eqn:Hle; members; [exact Hle|done]. }
  destruct (state a); try apply Hsim.
  destruct (Aircraft_land owner dt a sc) as [b s]. apply Hsim.
Qed.

(** X6: an update never creates a mesh and never changes the mesh pointer
    of the aircraft; it takes a mesh out of the scene only in the frame in
    which the aircraft stops being in flight, and then the one of the
    aircraft. *)
Theorem X6_update_and_the_scene (owner : Ship) (dt : F32.float) (a : Aircraft)
  (sc : scene.t) :
  let a' := (Aircraft_update owner dt a sc).1 in
  let sc' := (Aircraft_update owner dt a sc).2 in
  mesh a' = mesh a /\ scene.next sc' = scene.next sc /\
  dom (scene.meshes sc') =
    (if Aircraft_inFlight a && negb (Aircraft_inFlight a')
     then dom (scene.meshes sc) ∖ from_option singleton ∅ (mesh a)
     else dom (scene.meshes sc)).
Proof.
  cbn zeta. split; [apply Aircraft_update_mesh|].
  by destruct (Aircraft_update_scene owner dt a sc) as (? & _ & ?).
Qed.
End MoreAircraft.

Section Touchdown.
Context `{Libm}.

(** X7: the frame in which a landing aircraft is within 0.1 of the ship
    puts it in [REFUEL], takes its visual out of the scene while the
    pointer stays, starts the landing timer at the flight time, which this
    frame no longer advances, keeps the speed, and still moves the aircraft
    one step towards the ship. *)
Theorem X7_touchdown (owner : Ship) (dt : F32.float) (a : Aircraft)
  (sc : scene.t) :
  state a = LAND ->
  (distance (ship_position owner) (position a) <=? F32.dec 1 1)%f32 = true ->
  let a' := (Aircraft_update owner dt a sc).1 in
  let sc' := (Aircraft_update owner dt a sc).2 in
  state a' = REFUEL /\
  mesh a' = mesh a /\ ~ scene.live (mesh a') sc' /\
  landingTime a' = flightTime a /\ flightTime a' = flightTime a /\
  linearSpeed a' = linearSpeed a /\
  angle a' =
    std_atan2 (Vector2.y (ship_position owner) - Vector2.y (position a))%f32
      (Vector2.x (ship_position owner) - Vector2.x (position a))%f32 /\
  position a' =
    Vector2.add (position a)
      (Vector2.scale (linearSpeed a * dt)%f32 (heading (angle a'))).
Proof.
  intros Hst Hnear. cbn zeta. unfold Aircraft_update. rewrite Hst.
  unfold Aircraft_land, Ship_getPosition. unfold distance in Hnear.
  rewrite Hnear. unfold Aircraft_simulateFlight, Aircraft_inFlight. members.
  replace (bool_decide (REFUEL <> REFUEL)) with false by done.
  rewrite ?andb_false_r. cbn [negb]. members.
  split; [done|]. split; [done|]. split; [|done].
  intros (h & Hh & Hin). rewrite Hh in Hin.
  cbn [scene.destroyMesh scene.meshes] in Hin. set_solver.
Qed.
End Touchdown.

(** *** The ship *)

Section MoreShip.
Context `{Libm} `{Framework}.

Lemma setKey_some key v s :
  is_Some (Ship_setKey key v s) <-> valid_key key.
Proof.
  unfold Ship_setKey, valid_key. case_bool_decide; split; try done.
Qed.

(** X8: [keyPressed] and [keyReleased] go through exactly for the keys from
    0 below [KEY_COUNT]; on a ship with its [KEY_COUNT] flags they then set
    the flag of that key, leave the flag of every other such key, and leave
    the mesh, the position, the heading and the speed of the ship. *)
Theorem X8_key_events (key : Z) (s : Ship) :
  length (ship_input s) = Z.to_nat KEY_COUNT ->
  (is_Some (Ship_keyPressed key s) <-> valid_key key) /\
  (is_Some (Ship_keyReleased key s) <-> valid_key key) /\
  (forall v s',
      Ship_setKey key v s = Some s' ->
      Ship_key s' key = v /\
      (forall k, (0 <= k)%Z -> k <> key -> Ship_key s' k = Ship_key s k) /\
      ship_mesh s' = ship_mesh s /\ ship_position s' = ship_position s /\
      ship_angle s' = ship_angle s /\ ship_linearSpeed s' = ship_linearSpeed s).
Proof.
  intros Hlen. split; [apply setKey_some|]. split; [apply setKey_some|].
  intros v s'. unfold Ship_setKey. case_bool_decide as Hk; [|done].
  intros [= <-]. unfold Ship_key. cbn [ship_input ship_mesh ship_position
    ship_angle ship_linearSpeed].
  split; [|split; [|done]].
  - rewrite list_lookup_insert_eq; [done|]. rewrite Hlen. lia.
  - intros k Hk0 Hne. rewrite list_lookup_insert_ne; [done|]. lia.
Qed.

(** X9: on a ship with its [KEY_COUNT] flags, pressing a key that is up and
    releasing it again gives the ship back as it was; pressing a key twice
    is pressing it once. *)
Theorem X9_press_release (key : Z) (s : Ship) :
  length (ship_input s) = Z.to_nat KEY_COUNT -> valid_key key ->
  (Ship_key s key = false ->
   Ship_keyPressed key s ≫= Ship_keyReleased key = Some s) /\
  Ship_keyPressed key s ≫= Ship_keyPressed key = Ship_keyPressed key s.
Proof.
  intros Hlen Hk. unfold Ship_keyPressed, Ship_keyReleased, Ship_setKey.
  rewrite !bool_decide_eq_true_2 by done. cbn [mbind option_bind].
  rewrite ?bool_decide_eq_true_2 by done.
  cbn [ship_input ship_mesh ship_position ship_angle ship_linearSpeed].
  rewrite !list_insert_insert_eq. split; [|done].
  unfold Ship_key. intros Hup.
  assert (ship_input s !! Z.to_nat key = Some false) as Hl.
  { destruct (ship_input s !! Z.to_nat key) as [b|] eqn:Hb; [by simplify_eq/=|].
    apply lookup_ge_None in Hb. destruct Hk. lia. }
  rewrite list_insert_id by done. by destruct s.
Qed.

(** X10: [Ship::update] turns the ship by the turn rate times [dt]: +0.5 with
    the left key, else -0.5 with the right key, and only with the forward or
    the backward key held; the left key wins over the right one. *)
Theorem X10_turning (dt : F32.float) (s : Ship) (sc : scene.t) :
  ship_angle (Ship_update dt s sc).1 = (ship_angle s + turn_rate s * dt)%f32.
Proof.
  unfold Ship_update, turn_rate. cbn [ship_angle fst].
  destruct (Ship_key s KEY_FORWARD), (Ship_key s KEY_BACKWARD),
    (Ship_key s KEY_LEFT), (Ship_key s KEY_RIGHT); reflexivity.
Qed.

Lemma add_zero_same (a z : F32.float) s :
  z = S754_zero s -> same_number (a + z)%f32 a.
Proof.
  intros ->. destruct a as [sa|sa| |sa ma ea]; try (by left).
  right. destruct sa, s; by eexists _, _.
Qed.

Lemma mul_zero_finite (b : F32.float) s :
  F32.is_finite b = true -> exists s', (S754_zero s * b)%f32 = S754_zero s'.
Proof. destruct b as [sb|sb| |sb mb eb]; try done; by eexists. Qed.

(** X11: with the forward and the backward key released, a frame of finite
    [dt] leaves the ship where it is (a coordinate -0 may come out as +0)
    and at speed 0, provided the cosine and the sine of its heading are
    finite. *)
Theorem X11_ship_at_rest (dt : F32.float) (s : Ship) (sc : scene.t) :
  F32.is_finite dt = true ->
  Ship_key s KEY_FORWARD = false -> Ship_key s KEY_BACKWARD = false ->
  F32.is_finite (std_cos (ship_angle (Ship_update dt s sc).1)) = true ->
  F32.is_finite (std_sin (ship_angle (Ship_update dt s sc).1)) = true ->
  same_point (ship_position (Ship_update dt s sc).1) (ship_position s) /\
  ship_linearSpeed (Ship_update dt s sc).1 = F32.zero.
Proof.
  intros Hdt Hf Hb. unfold Ship_update. rewrite Hf, Hb.
  cbn [ship_angle ship_position ship_linearSpeed fst].
  replace (F32.zero !=? F32.zero)%f32 with false by done.
  rewrite !andb_false_r. change F32.zero with (S754_zero false).
  destruct (mul_zero_finite dt false Hdt) as [s0 E]. rewrite !E.
  intros Hc Hs. split; [|done].
  unfold same_point, Vector2.add, Vector2.scale, heading.
  cbn [Vector2.x Vector2.y].
  destruct (mul_zero_finite _ s0 Hc) as [sx ->].
  destruct (mul_zero_finite _ s0 Hs) as [sy ->].
  split; by eapply add_zero_same.
Qed.
End MoreShip.

Section MoreGame.
Context `{Libm} `{Framework}.

(** *** Clicks *)

Lemma left_click_eq x y g :
  game_mouseClicked x y true g =
    mkGame (ship g)
      (Aircraft_setTarget (Vector2.mk (screenToWorld (x, y)).1 (screenToWorld (x, y)).2)
         <$> planes g)
      (scene.placeGoalMarker (screenToWorld (x, y)).1 (screenToWorld (x, y)).2 (world g)).
Proof. unfold game_mouseClicked. by destruct (screenToWorld (x, y)). Qed.

Lemma right_click_eq x y g :
  game_mouseClicked x y false g =
    mkGame (ship g) (launch_first (ship g) (planes g) (world g)).1
      (launch_first (ship g) (planes g) (world g)).2.
Proof.
  unfold game_mouseClicked. destruct (screenToWorld (x, y)).
  cbn [Ship_mouseClicked]. by destruct (launch_first _ _ _).
Qed.

(** X12: a left click gives every aircraft, in whatever state, the clicked
    world position as its target and puts the goal marker there; the ship,
    the number of aircraft, their states, poses, speeds and meshes, and the
    visuals of the scene stay as they are. *)
Theorem X12_left_click (x y : F32.float) (g : Game) (i : nat) (a : Aircraft) :
  planes g !! i = Some a ->
  let w := Vector2.mk (screenToWorld (x, y)).1 (screenToWorld (x, y)).2 in
  let g' := game_mouseClicked x y true g in
  ship g' = ship g /\
  length (planes g') = length (planes g) /\
  (exists a', planes g' !! i = Some a' /\
     targetPosition a' = w /\ set_targetPosition (targetPosition a) a' = a) /\
  scene.goalMarker (world g') = Some (Vector2.x w, Vector2.y w) /\
  scene.meshes (world g') = scene.meshes (world g) /\
  scene.next (world g') = scene.next (world g).
Proof.
  intros Ha. cbn zeta. rewrite left_click_eq. cbn [ship planes world].
  split; [done|]. split; [by rewrite length_fmap|]. split; [|done].
  eexists. split; [by rewrite list_lookup_fmap, Ha|]. split; [done|].
  by destruct a.
Qed.

Lemma launch_first_setTarget w owner ps sc :
  launch_first owner (Aircraft_setTarget w <$> ps) sc =
    (Aircraft_setTarget w <$> (launch_first owner ps sc).1,
     (launch_first owner ps sc).2).
Proof.
  induction ps as [|a ps IH]; [done|]. cbn [fmap list_fmap launch_first].
  change (Aircraft_readyToFly (Aircraft_setTarget w a))
    with (Aircraft_readyToFly a).
  destruct (Aircraft_readyToFly a); [done|].
  change (list_fmap _ _ ?f ps) with (f <$> ps). rewrite IH.
  by destruct (launch_first owner ps sc).
Qed.

Lemma launch_first_goal owner ps sc gx gy :
  launch_first owner ps (scene.placeGoalMarker gx gy sc) =
    ((launch_first owner ps sc).1,
     scene.placeGoalMarker gx gy (launch_first owner ps sc).2).
Proof.
  induction ps as [|a ps IH]; [done|]. cbn [launch_first].
  destruct (Aircraft_readyToFly a); [done|].
  rewrite IH. by destruct (launch_first owner ps sc).
Qed.

(** X13: of two left clicks in a row the second alone counts, and a left
    click and a right click give the same game in either order: the target
    of a launch and the launch of a target do not depend on each other. *)
Theorem X13_clicks_compose (x y x' y' : F32.float) (g : Game) :
  game_mouseClicked x' y' true (game_mouseClicked x y true g) =
    game_mouseClicked x' y' true g /\
  game_mouseClicked x y true (game_mouseClicked x' y' false g) =
    game_mouseClicked x' y' false (game_mouseClicked x y true g).
Proof.
  split.
  - rewrite !left_click_eq. cbn [ship planes world]. f_equal.
    rewrite <- list_fmap_compose. apply list_fmap_ext. by intros _ [] _.
  - rewrite !right_click_eq, !left_click_eq. cbn [ship planes world].
    rewrite launch_first_setTarget, launch_first_goal. done.
Qed.

(** *** Frames *)

(** X14: [game::update] moves the ship first: an aircraft taking off takes
    the heading the ship has after this frame's turn, and moves along it by
    its own speed plus the speed the ship has in this frame, times [dt]. *)
Theorem X14_takeoff_follows_ship (dt : F32.float) (g : Game) (i : nat)
  (a : Aircraft) :
  planes g !! i = Some a -> state a = TAKEOFF ->
  exists a',
    planes (game_update dt g) !! i = Some a' /\
    angle a' = ship_angle (ship (game_update dt g)) /\
    angle a' = (ship_angle (ship g) + turn_rate (ship g) * dt)%f32 /\
    position a' =
      Vector2.add (position a)
        (Vector2.scale
           ((linearSpeed a + ship_linearSpeed (ship (game_update dt g))) * dt)%f32
           (heading (angle a'))).
Proof.
  intros Ha Hst. rewrite game_update_planes, list_lookup_fmap, Ha.
  eexists. split; [done|].
  rewrite game_update_eq. cbn [ship].
  set (s := (Ship_update dt (ship g) (world g)).1).
  assert (ship_angle s = (ship_angle (ship g) + turn_rate (ship g) * dt)%f32) as Hang.
  { unfold s, Ship_update, turn_rate. cbn [ship_angle fst].
    destruct (Ship_key (ship g) KEY_FORWARD), (Ship_key (ship g) KEY_BACKWARD),
      (Ship_key (ship g) KEY_LEFT), (Ship_key (ship g) KEY_RIGHT); reflexivity. }
  rewrite <- Hang.
  destruct (simulateFlight_pose dt (Aircraft_takeoff s dt a) scene.empty)
    as (Hp & Ha' & _).
  unfold Aircraft_update. rewrite Hst, Hp, !Ha'.
  unfold Aircraft_takeoff.
  by destruct (flightTime a >=? takeoffTime a)%f32.
Qed.

(** *** The scene *)

Lemma flying_meshes_count sc ps :
  Forall (plane_mesh_ok sc) ps -> length (flying_meshes ps) = airborne_count ps.
Proof.
  unfold airborne_count. induction 1 as [|a ps (Hm & _) _ IH]; [done|].
  rewrite flying_meshes_cons, filter_cons. unfold flying_mesh.
  destruct (Aircraft_inFlight a) eqn:Hf.
  - destruct (Hm eq_refl) as [h ->]. rewrite decide_True by done.
    simpl. by rewrite IH.
  - by rewrite decide_False by done.
Qed.

(** X15: in every reachable game the scene holds one visual for the ship
    and one for each aircraft in flight, and no other: their number is one
    plus the number of aircraft in flight, six at most. *)
Theorem X15_visuals_counted (g : Game) :
  reachable g ->
  size (dom (scene.meshes (world g))) = S (airborne_count (planes g)) /\
  airborne_count (planes g) <= 5.
Proof.
  intros ((hs & _ & _ & Hnd & Hdom & Hall) & _ & Hlen & _)%reachable_ok.
  split.
  - rewrite Hdom, size_list_to_set by done.
    cbn [length]. f_equal. by eapply flying_meshes_count.
  - rewrite <- Hlen. unfold airborne_count. apply length_filter.
Qed.

(** *** [init] and [deinit] *)

(** X16: [init] on a game that is running fails on [assert( !mesh )]: a
    reachable game has to go through [deinit] first. *)
Theorem X16_init_twice (g : Game) :
  reachable g -> game_init g = None /\ is_Some (game_init (game_deinit g)).
Proof.
  intros Hok%reachable_ok. split.
  - destruct Hok as ((hs & Hhs & _) & _). unfold game_init, Ship_init.
    by rewrite Hhs.
  - destruct (restart_ok g Hok) as (g' & Hg' & _). by exists g'.
Qed.

(** X17: [deinit] in a reachable game leaves no visual in the scene and no
    mesh with the ship or with an aircraft in flight; it does not touch the
    states: an aircraft that was in flight still counts as in flight. *)
Theorem X17_deinit_clears (g : Game) :
  reachable g ->
  scene.meshes (world (game_deinit g)) = ∅ /\
  ship_mesh (ship (game_deinit g)) = None /\
  state <$> planes (game_deinit g) = state <$> planes g /\
  Forall (fun a => Aircraft_inFlight a = true -> mesh a = None)
    (planes (game_deinit g)).
Proof.
  intros ((hs & Hhs & _ & _ & Hdom & _) & _)%reachable_ok.
  rewrite game_deinit_eq. cbn [world ship planes].
  rewrite deinit_loop_planes.
  destruct (deinit_loop_scene (planes g) (Ship_deinit (ship g) (world g)).2)
    as [_ Hd].
  split; [|split; [done|split]].
  - apply dom_empty_inv_L. rewrite Hd. unfold Ship_deinit. cbn [snd].
    destruct (destroyMesh_scene (ship_mesh (ship g)) (world g)) as [_ ->].
    rewrite Hhs, Hdom. cbn [from_option]. set_solver.
  - rewrite <- list_fmap_compose. apply list_fmap_ext. intros _ a _.
    simpl. by destruct (Aircraft_inFlight a).
  - apply Forall_fmap, Forall_forall. intros a _. simpl.
    destruct (Aircraft_inFlight a) eqn:Hf; [done|]. intros; congruence.
Qed.

Lemma deinit_loop_again ps sc :
  let body := fun plane sc =>
    if Aircraft_inFlight plane then Aircraft_deinit plane sc else (plane, sc) in
  let f := fun a => if Aircraft_inFlight a then set_mesh None a else a in
  for_each body (f <$> ps) sc = (f <$> ps, sc).
Proof.
  cbn zeta. revert sc. induction ps as [|a ps IH]; intros sc; [done|].
  cbn [fmap list_fmap for_each].
  change (list_fmap _ _ ?f ps) with (f <$> ps).
  destruct (Aircraft_inFlight a) eqn:Hf.
  - change (Aircraft_inFlight (set_mesh None a)) with (Aircraft_inFlight a).
    rewrite Hf. unfold Aircraft_deinit.
    cbn [mesh set_mesh scene.destroyMesh]. by rewrite IH.
  - by rewrite Hf, IH.
Qed.

(** X18: [deinit] twice is [deinit] once, in any game: the pointers it has
    set to null destroy nothing the second time. *)
Theorem X18_deinit_twice (g : Game) :
  game_deinit (game_deinit g) = game_deinit g.
Proof.
  rewrite (game_deinit_eq (game_deinit g)). rewrite !game_deinit_eq.
  cbn [ship planes world Ship_deinit fst snd ship_mesh scene.destroyMesh
       ship_position ship_angle ship_linearSpeed ship_input].
  rewrite !deinit_loop_planes. rewrite deinit_loop_again. cbn [snd].
  f_equal. rewrite <- list_fmap_compose. apply list_fmap_ext. intros _ a _.
  simpl. destruct (Aircraft_inFlight a) eqn:Hf; [|by rewrite Hf].
  change (Aircraft_inFlight (set_mesh None a)) with (Aircraft_inFlight a).
  by rewrite Hf.
Qed.

(** *** Events *)

Lemma key_step_fails key v g :
  (Ship_setKey key v (ship g) ≫= fun s => Some (mkGame s (planes g) (world g)))
    = None <-> ~ valid_key key.
Proof.
  unfold Ship_setKey, valid_key. case_bool_decide; simpl; split; try done.
Qed.

(** X19: in a reachable game the only events that fail are the key events
    with a key outside 0 .. [KEY_COUNT] - 1: clicks, frames of any [dt] and
    restarts always go through. *)
Theorem X19_failing_events (g : Game) (e : Event) :
  reachable g -> (step g e = None <-> bad_key e).
Proof.
  intros Hok%reachable_ok. destruct e; cbn [step bad_key].
  - apply key_step_fails.
  - apply key_step_fails.
  - done.
  - done.
  - destruct (restart_ok g Hok) as (g' & -> & _). done.
Qed.

Lemma quiet_step e g :
  quiet e = true ->
  exists g', step g e = Some g' /\ ship_input (ship g') = ship_input (ship g) /\
             ship_mesh (ship g') = ship_mesh (ship g).
Proof.
  destruct e; try done; intros _; cbn [step]; eexists; (split; [done|]).
  - unfold game_mouseClicked. destruct (screenToWorld _).
    by destruct (Ship_mouseClicked _ _ _ _ _).
  - rewrite game_update_eq. cbn [ship].
    by destruct (Ship_update_fields dt (ship g) (world g)) as (? & ? & _).
Qed.

(** X20: clicks and frames never fail and never change a key flag: a key
    stays held until it is released, or the game is restarted, however many
    frames and clicks come between. *)
Theorem X20_keys_persist (es : list Event) (g : Game) :
  forallb quiet es = true ->
  exists g', run es g = Some g' /\ ship_input (ship g') = ship_input (ship g).
Proof.
  revert g. induction es as [|e es IH]; intros g Hq; [by exists g|].
  cbn [forallb] in Hq. apply andb_true_iff in Hq as [He Hes].
  destruct (quiet_step e g He) as (g1 & Hstep & Hin & _).
  destruct (IH g1 Hes) as (g' & Hrun & Hin').
  exists g'. cbn [run]. rewrite Hstep. simpl. split; [done|congruence].
Qed.
End MoreGame.

Section Shown.
Context `{Libm} `{Framework}.

Lemma placeMesh_shown h pos ang sc :
  h ∈ dom (scene.meshes sc) ->
  shown_at (Some h) pos ang
    (scene.placeMesh (Some h) (Vector2.x pos) (Vector2.y pos) ang sc).
Proof.
  intros [pl Hpl]%elem_of_dom. eexists h, _. split; [done|].
  cbn [scene.placeMesh scene.meshes]. rewrite lookup_alter_eq, Hpl. done.
Qed.

Lemma placeMesh_other p x y ang sc h :
  p <> Some h ->
  scene.meshes (scene.placeMesh p x y ang sc) !! h = scene.meshes sc !! h.
Proof.
  destruct p as [h'|]; [|done]. intros Hne.
  cbn [scene.placeMesh scene.meshes]. apply lookup_alter_ne. congruence.
Qed.

Lemma destroyMesh_other p sc h :
  p <> Some h ->
  scene.meshes (scene.destroyMesh p sc) !! h = scene.meshes sc !! h.
Proof.
  destruct p as [h'|]; [|done]. intros Hne.
  cbn [scene.destroyMesh scene.meshes]. apply lookup_delete_ne. congruence.
Qed.

Lemma simulateFlight_other dt a sc h :
  flying_mesh a <> Some h ->
  scene.meshes (Aircraft_simulateFlight dt a sc).2 !! h = scene.meshes sc !! h.
Proof.
  unfold flying_mesh, Aircraft_simulateFlight.
  destruct (Aircraft_inFlight a); [|done]. intros Hne. cbn [negb snd].
  apply placeMesh_other. by destruct (_ <=? _)%f32.
Qed.

(** An update leaves the visuals of the others as they are. *)
Lemma Aircraft_update_other owner dt a sc h :
  flying_mesh a <> Some h ->
  scene.meshes (Aircraft_update owner dt a sc).2 !! h = scene.meshes sc !! h.
Proof.
  intros Hne. unfold Aircraft_update.
  destruct (Aircraft_inFlight a) eqn:Hfa.
  - unfold flying_mesh in Hne. rewrite Hfa in Hne.
    assert (forall b, mesh b = mesh a -> flying_mesh b <> Some h) as Hb.
    { intros b Hm. unfold flying_mesh.
      destruct (Aircraft_inFlight b); congruence. }
    destruct (state a).
    + by apply simulateFlight_other, Hb.
    + apply simulateFlight_other, Hb.
      unfold Aircraft_takeoff. by destruct (_ >=? _)%f32.
    + apply simulateFlight_other, Hb.
      unfold Aircraft_fly. by destruct (_ <=? _)%f32.
    + apply simulateFlight_other, Hb.
      unfold Aircraft_hover. destruct (_ >? _)%f32; [done|].
      by destruct (_ >=? _)%f32.
    + unfold Aircraft_land. destruct (_ <=? _)%f32.
      * rewrite simulateFlight_other by (by apply Hb).
        by apply destroyMesh_other.
      * by apply simulateFlight_other, Hb.
    + apply simulateFlight_other, Hb.
      unfold Aircraft_refuel. members. by destruct (_ >? _)%f32.
  - apply inFlight_false in Hfa as [Hst|Hst]; rewrite Hst.
    + by apply simulateFlight_other.
    + apply simulateFlight_other.
      unfold flying_mesh, Aircraft_refuel, Aircraft_inFlight. members.
      destruct (_ >? _)%f32; members; [done|]. by rewrite Hst.
Qed.

(** An update shows an aircraft that stays in flight where it has moved. *)
Lemma Aircraft_update_shown owner dt a sc h :
  mesh a = Some h -> h ∈ dom (scene.meshes sc) ->
  Aircraft_inFlight (Aircraft_update owner dt a sc).1 = true ->
  shown_at (mesh (Aircraft_update owner dt a sc).1)
    (position (Aircraft_update owner dt a sc).1)
    (angle (Aircraft_update owner dt a sc).1)
    (Aircraft_update owner dt a sc).2.
Proof.
  intros Hm Hin.
  assert (forall b sc1, mesh b = Some h -> h ∈ dom (scene.meshes sc1) ->
            Aircraft_inFlight (Aircraft_simulateFlight dt b sc1).1 = true ->
            shown_at (mesh (Aircraft_simulateFlight dt b sc1).1)
              (position (Aircraft_simulateFlight dt b sc1).1)
              (angle (Aircraft_simulateFlight dt b sc1).1)
              (Aircraft_simulateFlight dt b sc1).2) as Hsim.
  { intros b sc1 Hb Hd. rewrite simulateFlight_inFlight.
    destruct (simulateFlight_pose dt b sc1) as (-> & -> & _).
    rewrite simulateFlight_mesh.
    unfold Aircraft_simulateFlight. intros ->. cbn [negb snd].
    replace (mesh (set_flightTime _ _)) with (Some h)
      by (by destruct (_ <=? _)%f32).
    replace (position (set_flightTime _ _)) with (position b)
      by (by destruct (_ <=? _)%f32).
    replace (angle (set_flightTime _ _)) with (angle b)
      by (by destruct (_ <=? _)%f32).
    rewrite Hb. by apply placeMesh_shown. }
  unfold Aircraft_update. destruct (state a) eqn:Hst.
  - by apply Hsim.
  - apply Hsim; [|done]. unfold Aircraft_takeoff. by destruct (_ >=? _)%f32.
  - apply Hsim; [|done]. unfold Aircraft_fly. by destruct (_ <=? _)%f32.
  - apply Hsim; [|done]. unfold Aircraft_hover. destruct (_ >? _)%f32; [done|].
    by destruct (_ >=? _)%f32.
  - unfold Aircraft_land. destruct (_ <=? _)%f32.
    + rewrite simulateFlight_inFlight. unfold Aircraft_inFlight. members.
      replace (bool_decide (REFUEL <> REFUEL)) with false by done.
      by rewrite andb_false_r.
    + by apply Hsim.
  - apply Hsim; [|done]. unfold Aircraft_refuel. by destruct (_ >? _)%f32.
Qed.

Lemma for_each_other owner dt ps sc h :
  h ∉ flying_meshes ps ->
  scene.meshes (for_each (Aircraft_update owner dt) ps sc).2 !! h
    = scene.meshes sc !! h.
Proof.
  revert sc. induction ps as [|a ps IH]; intros sc Hh; [done|].
  cbn [for_each]. rewrite flying_meshes_cons in Hh.
  pose proof (Aircraft_update_other owner dt a sc h) as Ha.
  destruct (Aircraft_update owner dt a sc) as [a' sc1].
  specialize (IH sc1). destruct (for_each _ ps sc1) as [ps' sc2].
  cbn [snd] in *. destruct (flying_mesh a) as [h'|] eqn:Hfm.
  - apply not_elem_of_cons in Hh as [Hne Hnot]. rewrite IH by done.
    apply Ha. congruence.
  - rewrite IH by done. by apply Ha.
Qed.

Lemma shown_at_other p pos ang sc sc' :
  (forall h, p = Some h -> scene.meshes sc' !! h = scene.meshes sc !! h) ->
  shown_at p pos ang sc -> shown_at p pos ang sc'.
Proof.
  intros Hsame (h & pl & Hp & Hl & Hrest). exists h, pl.
  split; [done|]. by rewrite (Hsame h Hp).
Qed.

Lemma for_each_shown owner dt ps sc i a' :
  Forall (fun a => Aircraft_inFlight a = true -> is_Some (mesh a)) ps ->
  NoDup (flying_meshes ps) ->
  (forall h, h ∈ flying_meshes ps -> h ∈ dom (scene.meshes sc)) ->
  (for_each (Aircraft_update owner dt) ps sc).1 !! i = Some a' ->
  Aircraft_inFlight a' = true ->
  shown_at (mesh a') (position a') (angle a')
    (for_each (Aircraft_update owner dt) ps sc).2.
Proof.
  revert sc i. induction ps as [|a ps IH]; intros sc i Hall Hnd Hdom; [done|].
  cbn [for_each]. rewrite flying_meshes_cons in Hnd, Hdom.
  apply Forall_cons in Hall as [Hsome Hall].
  pose proof (Aircraft_update_shown owner dt a sc) as Hshown.
  pose proof (Aircraft_update_mesh owner dt a sc) as Hmesh.
  pose proof (Aircraft_update_scene owner dt a sc) as (_ & Hmono & Hd).
  destruct (Aircraft_update owner dt a sc) as [a1 sc1]. cbn [fst snd] in *.
  pose proof (for_each_other owner dt ps sc1) as Hother.
  specialize (IH sc1).
  destruct (for_each _ ps sc1) as [ps' sc2]. cbn [fst snd] in *.
  unfold flying_mesh in Hnd, Hdom.
  destruct i as [|i]; cbn [lookup list_lookup].
  - intros [= <-] Hf. pose proof (Hmono Hf) as Hfa.
    rewrite Hfa in Hnd, Hdom. destruct (Hsome Hfa) as [h Hm].
    rewrite Hm in Hnd, Hdom. apply NoDup_cons in Hnd as [Hnotin _].
    eapply shown_at_other; [|apply (Hshown h); [done|set_solver|done]].
    intros h' Hh'. apply Hother. congruence.
  - apply IH; [done| |].
    + destruct (Aircraft_inFlight a); [|done].
      destruct (mesh a); [|done]. by apply NoDup_cons in Hnd as [_ ?].
    + intros h Hh. rewrite Hd.
      destruct (Aircraft_inFlight a) eqn:Hfa; cbn [andb].
      * destruct (Hsome eq_refl) as [h0 Hm]. rewrite Hm in Hnd, Hdom |- *.
        apply NoDup_cons in Hnd as [Hnotin _].
        destruct (negb _); cbn [from_option]; set_solver.
      * by apply Hdom.
Qed.

(** X21: after every frame of a reachable game the scene shows the ship,
    and every aircraft that is in flight, at the position and the heading
    the game has for it. *)
Theorem X21_frame_shown (dt : F32.float) (g : Game) :
  reachable g ->
  shown_at (ship_mesh (ship (game_update dt g)))
    (ship_position (ship (game_update dt g)))
    (ship_angle (ship (game_update dt g))) (world (game_update dt g)) /\
  (forall i a,
     planes (game_update dt g) !! i = Some a -> Aircraft_inFlight a = true ->
     shown_at (mesh a) (position a) (angle a) (world (game_update dt g))).
Proof.
  intros ((hs & Hhs & _ & Hnd & Hdom & Hall) & _)%reachable_ok.
  rewrite game_update_eq. cbn [ship planes world].
  pose proof (Ship_update_fields dt (ship g) (world g)) as (_ & _ & _ & Hd).
  apply NoDup_cons in Hnd as [Hhsnot Hnd]. split.
  - eapply shown_at_other.
    { intros h Hh. apply for_each_other.
      unfold Ship_update in Hh. cbn [fst ship_mesh] in Hh. congruence. }
    unfold Ship_update. cbn [fst snd ship_mesh ship_position ship_angle].
    rewrite Hhs. apply placeMesh_shown. rewrite Hdom. set_solver.
  - intros i a. apply for_each_shown; [|done|].
    + eapply Forall_impl; [exact Hall|]. by intros b (? & _).
    + intros h Hh. cbn zeta in Hd. rewrite Hd, Hdom. set_solver.
Qed.
End Shown.

Section Timers.
Context `{Libm} `{Framework}.

Lemma simulateFlight_timers dt a sc :
  elapsed dt = true -> timers_ok a ->
  timers_ok (Aircraft_simulateFlight dt a sc).1.
Proof.
  intros Hdt%leb_zero_not_negative (Hf & Hl & Hz).
  unfold Aircraft_simulateFlight. destruct (negb _); [done|].
  unfold timers_ok. destruct (_ <=? _)%f32; members;
    (split; [by apply add_not_negative|done]).
Qed.

Lemma timers_ok_frame a b :
  flightTime b = flightTime a -> landingTime b = landingTime a ->
  state b <> REFUEL -> state a <> REFUEL -> timers_ok a -> timers_ok b.
Proof.
  intros Hf Hl Hb Ha (? & ? & Hz). unfold timers_ok. rewrite Hf, Hl. auto.
Qed.

Lemma Aircraft_update_timers owner dt a sc :
  elapsed dt = true -> timers_ok a ->
  timers_ok (Aircraft_update owner dt a sc).1.
Proof.
  intros Hdt Hok. unfold Aircraft_update.
  destruct (state a) eqn:Hst.
  - by apply simulateFlight_timers.
  - apply simulateFlight_timers; [done|].
    apply (timers_ok_frame a); [..|by rewrite Hst|done];
      unfold Aircraft_takeoff;
      by (destruct (_ >=? _)%f32; members; rewrite ?Hst).
  - apply simulateFlight_timers; [done|].
    apply (timers_ok_frame a); [..|by rewrite Hst|done];
      unfold Aircraft_fly;
      by (destruct (_ <=? _)%f32; members; rewrite ?Hst).
  - apply simulateFlight_timers; [done|].
    apply (timers_ok_frame a); [..|by rewrite Hst|done];
      unfold Aircraft_hover;
      by (destruct (_ >? _)%f32; [|destruct (_ >=? _)%f32]; members;
          rewrite ?Hst).
  - destruct Hok as (Hf & Hl & Hz). unfold Aircraft_land.
    destruct (_ <=? _)%f32; (apply simulateFlight_timers; [done|]);
      unfold timers_ok; members; [done|].
    split; [done|]. split; [done|]. intros _. apply Hz. by rewrite Hst.
  - apply simulateFlight_timers; [done|].
    destruct Hok as (Hf & Hl & Hz). unfold Aircraft_refuel, timers_ok. members.
    destruct (_ >? _)%f32; members; [done|].
    split; [done|]. split; [|by rewrite Hst].
    apply add_not_negative; [done|]. by apply leb_zero_not_negative.
Qed.

Lemma launch_first_timers owner ps sc :
  Forall timers_ok ps -> Forall timers_ok (launch_first owner ps sc).1.
Proof.
  intros Hall. revert sc.
  induction Hall as [|a ps Ha Hps IH]; intros sc; [by constructor|].
  cbn [launch_first].
  destruct (Aircraft_readyToFly a) eqn:Hr.
  - pose proof (launch_fields owner a sc)
      as (_ & _ & _ & _ & _ & _ & _ & Hft & Hlt & _).
    destruct (Aircraft_launch owner a sc) as [a1 sc1]. cbn [fst] in *.
    apply Forall_cons. split; [|done].
    destruct Ha as (? & ? & Hz). apply readyToFly_state in Hr.
    unfold timers_ok. rewrite Hft, Hlt.
    split; [done|]. split; [done|]. intros _. apply Hz. by rewrite Hr.
  - specialize (IH sc). destruct (launch_first owner ps sc) as [ps' sc2].
    cbn [fst] in *. by apply Forall_cons.
Qed.

Lemma step_timers g e g' :
  event_ok e = true -> step g e = Some g' ->
  Forall timers_ok (planes g) -> Forall timers_ok (planes g').
Proof.
  intros He Hstep Hok. destruct e; simpl in *.
  - unfold game_keyPressed in Hstep.
    destruct (Ship_keyPressed key (ship g)); [|done]. by injection Hstep as <-.
  - unfold game_keyReleased in Hstep.
    destruct (Ship_keyReleased key (ship g)); [|done]. by injection Hstep as <-.
  - injection Hstep as <-. unfold game_mouseClicked, Ship_mouseClicked.
    destruct (screenToWorld (x, y)) as [wx wy]. destruct isLeftButton.
    + cbn [planes]. apply Forall_fmap. eapply Forall_impl; [exact Hok|].
      by intros a Ha.
    + pose proof (launch_first_timers (ship g) (planes g) (world g) Hok).
      by destruct (launch_first _ _ _).
  - injection Hstep as <-. rewrite game_update_planes.
    apply Forall_fmap. eapply Forall_impl; [exact Hok|].
    intros a Ha. by apply Aircraft_update_timers.
  - apply game_init_fields in Hstep as (-> & _).
    apply Forall_fmap, Forall_forall. by intros a _.
Qed.

(** X22: in a game reached by frames of elapsed time no timer of an
    aircraft is negative, and the landing timer is 0 in every state but
    [REFUEL]. *)
Theorem X22_timers (g : Game) (i : nat) (a : Aircraft) :
  reachable_in_time g -> planes g !! i = Some a ->
  not_negative (flightTime a) /\ not_negative (landingTime a) /\
  (state a <> REFUEL -> landingTime a = F32.zero).
Proof.
  intros Hg Ha. cut (Forall timers_ok (planes g)).
  { rewrite Forall_lookup. intros Hall. exact (Hall i a Ha). }
  clear i a Ha. induction Hg as [g Hg|g e g' _ IH He Hstep].
  - apply game_init_fields in Hg as (-> & _).
    apply Forall_fmap, Forall_forall. by intros a _.
  - by eapply step_timers.
Qed.
End Timers.

(** ** The further properties on concrete values *)

Section FurtherOnReference.
#[local] Existing Instance ref_libm.
#[local] Existing Instance ref_framework.

Lemma X3_arrival_witness :
  state MoreRuns.arrived = FLY /\
  position MoreRuns.arrived = targetPosition MoreRuns.arrived /\
  state (Aircraft_update MoreRuns.at_anchor Runs.half MoreRuns.arrived
           scene.empty).1 = HOVER.
Proof.
  split; [reflexivity|]. split; [reflexivity|].
  apply (X3_arrival MoreRuns.at_anchor Runs.half MoreRuns.arrived scene.empty);
    vm_compute; reflexivity.
Defined.

Lemma X4_out_of_flight_witness :
  Aircraft_inFlight MoreRuns.in_the_hangar = false /\
  position (Aircraft_update MoreRuns.at_anchor Runs.half MoreRuns.in_the_hangar
              scene.empty).1 = position MoreRuns.in_the_hangar.
Proof.
  split; [reflexivity|].
  apply (X4_out_of_flight_untouched MoreRuns.at_anchor Runs.half
           MoreRuns.in_the_hangar scene.empty).
  reflexivity.
Defined.

Lemma X5_speed_capped_witness :
  Aircraft_inFlight
    (Aircraft_update Runs.turning_at_rest Runs.half Runs.circling scene.empty).1
  = true /\
  (linearSpeed
     (Aircraft_update Runs.turning_at_rest Runs.half Runs.circling scene.empty).1
   <=? F32.of_Z 2)%f32 = true.
Proof.
  split; [vm_compute; reflexivity|].
  apply (X5_speed_capped Runs.turning_at_rest Runs.half Runs.circling
           scene.empty).
  vm_compute; reflexivity.
Defined.

Lemma X7_touchdown_witness :
  state MoreRuns.touching_down = LAND /\
  state (Aircraft_update MoreRuns.at_anchor Runs.half MoreRuns.touching_down
           scene.empty).1 = REFUEL.
Proof.
  split; [reflexivity|].
  apply (X7_touchdown MoreRuns.at_anchor Runs.half MoreRuns.touching_down
           scene.empty); vm_compute; reflexivity.
Defined.

Lemma X8_key_events_witness :
  length (ship_input MoreRuns.at_anchor) = Z.to_nat KEY_COUNT /\
  (is_Some (Ship_keyPressed 4 MoreRuns.at_anchor) <-> valid_key 4).
Proof.
  split; [reflexivity|].
  apply (X8_key_events 4 MoreRuns.at_anchor). reflexivity.
Defined.

Lemma X9_press_release_witness :
  Ship_key MoreRuns.at_anchor 1 = false /\
  Ship_keyPressed 1 MoreRuns.at_anchor ≫= Ship_keyReleased 1
  = Some MoreRuns.at_anchor.
Proof.
  split; [reflexivity|].
  apply (X9_press_release 1 MoreRuns.at_anchor); [reflexivity| |reflexivity].
  unfold valid_key. simpl. lia.
Defined.

Lemma X11_ship_at_rest_witness :
  Ship_key MoreRuns.at_anchor KEY_FORWARD = false /\
  Ship_key MoreRuns.at_anchor KEY_BACKWARD = false /\
  same_point
    (ship_position (Ship_update (F32.of_Z 1) MoreRuns.at_anchor scene.empty).1)
    (ship_position MoreRuns.at_anchor).
Proof.
  split; [reflexivity|]. split; [reflexivity|].
  apply (X11_ship_at_rest (F32.of_Z 1) MoreRuns.at_anchor scene.empty);
    vm_compute; reflexivity.
Defined.

Lemma X12_left_click_witness :
  planes Runs.airborne_game !! 0 = Some Runs.airborne_plane /\
  ship (game_mouseClicked (F32.of_Z 3) (F32.of_Z 4) true Runs.airborne_game)
  = ship Runs.airborne_game.
Proof.
  assert (planes Runs.airborne_game !! 0 = Some Runs.airborne_plane) as Hp
    by (vm_compute; reflexivity).
  split; [exact Hp|].
  exact (proj1 (X12_left_click (F32.of_Z 3) (F32.of_Z 4) Runs.airborne_game 0
                  Runs.airborne_plane Hp)).
Defined.

Lemma X14_takeoff_follows_ship_witness :
  planes MoreRuns.taking_off_game !! 0 = Some MoreRuns.taking_off_plane /\
  state MoreRuns.taking_off_plane = TAKEOFF /\
  exists a',
    planes (game_update (F32.of_Z 1) MoreRuns.taking_off_game) !! 0 = Some a' /\
    angle a' = ship_angle (ship (game_update (F32.of_Z 1) MoreRuns.taking_off_game)).
Proof.
  assert (planes MoreRuns.taking_off_game !! 0 = Some MoreRuns.taking_off_plane)
    as Hp by (vm_compute; reflexivity).
  assert (state MoreRuns.taking_off_plane = TAKEOFF) as Hs
    by (vm_compute; reflexivity).
  split; [exact Hp|]. split; [exact Hs|].
  destruct (X14_takeoff_follows_ship (F32.of_Z 1) MoreRuns.taking_off_game 0
              MoreRuns.taking_off_plane Hp Hs) as (a' & Ha' & Hang & _).
  exists a'. split; [exact Ha'|exact Hang].
Defined.

Lemma X15_visuals_counted_witness :
  reachable Runs.airborne_game /\
  size (dom (scene.meshes (world Runs.airborne_game)))
  = S (airborne_count (planes Runs.airborne_game)).
Proof.
  split; [exact airborne_reachable|].
  exact (proj1 (X15_visuals_counted Runs.airborne_game airborne_reachable)).
Defined.

Lemma X16_init_twice_witness :
  reachable Runs.airborne_game /\ game_init Runs.airborne_game = None.
Proof.
  split; [exact airborne_reachable|].
  exact (proj1 (X16_init_twice Runs.airborne_game airborne_reachable)).
Defined.

Lemma X17_deinit_clears_witness :
  reachable Runs.airborne_game /\
  scene.meshes (world (game_deinit Runs.airborne_game)) = ∅.
Proof.
  split; [exact airborne_reachable|].
  exact (proj1 (X17_deinit_clears Runs.airborne_game airborne_reachable)).
Defined.

Lemma X19_failing_events_witness :
  reachable Runs.airborne_game /\
  (step Runs.airborne_game (KeyPressed 7) = None <-> bad_key (KeyPressed 7)).
Proof.
  split; [exact airborne_reachable|].
  exact (X19_failing_events Runs.airborne_game (KeyPressed 7) airborne_reachable).
Defined.

Lemma X20_keys_persist_witness :
  forallb quiet MoreRuns.quiet_events = true /\
  exists g',
    run MoreRuns.quiet_events MoreRuns.taking_off_game = Some g' /\
    ship_input (ship g') = ship_input (ship MoreRuns.taking_off_game).
Proof.
  split; [reflexivity|].
  apply (X20_keys_persist MoreRuns.quiet_events MoreRuns.taking_off_game).
  reflexivity.
Defined.

Lemma X21_frame_shown_witness :
  reachable Runs.airborne_game /\
  shown_at (ship_mesh (ship (game_update Runs.half Runs.airborne_game)))
    (ship_position (ship (game_update Runs.half Runs.airborne_game)))
    (ship_angle (ship (game_update Runs.half Runs.airborne_game)))
    (world (game_update Runs.half Runs.airborne_game)).
Proof.
  split; [exact airborne_reachable|].
  exact (proj1 (X21_frame_shown Runs.half Runs.airborne_game airborne_reachable)).
Defined.

Lemma X22_timers_witness :
  reachable_in_time Runs.airborne_game /\
  planes Runs.airborne_game !! 0 = Some Runs.airborne_plane /\
  not_negative (flightTime Runs.airborne_plane).
Proof.
  assert (planes Runs.airborne_game !! 0 = Some Runs.airborne_plane) as Hp
    by (vm_compute; reflexivity).
  split; [exact airborne_in_time|]. split; [exact Hp|].
  exact (proj1 (X22_timers Runs.airborne_game 0 Runs.airborne_plane
                  airborne_in_time Hp)).
Defined.
End FurtherOnReference.
